(** * Pooling kernel construction for the MKL-DNN CPU backend

    A shallow embedding of [ngraph/transformers/cpu/pooling.c]:
    [create_mkldnn_pool_fprop_kernel] and [create_mkldnn_pool_bprop_kernel].

    The two builders are straight-line C code that talks to the MKL-DNN
    library, writes the fields of an operator kernel record through a
    pointer and finally stores the created primitive in the kernel's net.
    The embedding keeps that shape:

    - the MKL-DNN library and the tensor helpers of [mkldnn_util] are an
      interface ([MklDnn]); every theorem holds for every implementation
      of it, except the one on the layouts of a forward and backward
      pair, which assumes the layout negotiation the specification
      ascribes to the engine ([engine_propagates_layouts]);
    - the kernels live in a store indexed by address, so that the forward
      kernel handed to the backward builder and the kernel under
      construction are two pointers into one memory;
    - a builder is a computation in a small monad [M] with three ways to
      end: it returns, the process exits inside [MKL_CHECK], or it
      dereferences an invalid pointer;
    - every call that leaves [pooling.c] is written to a call log, with the
      arguments it was given, so that "what is passed to the engine" can be
      stated and proved; the one exception is [mkldnn_primitive_at], which
      only pairs a primitive with an output index: it is embedded as that
      pair and has no entry in the log.

    C [int] values are modelled in [Z]: the source compares [pool_type]
    with 0, passes ranks and extents on unchanged, and its only arithmetic
    is [net_size++].  The arrays of the kernel record are finite maps from
    the index to the slot's content: a slot that was never written is
    absent.  Their capacity is fixed by a declaration that is not among
    the sources and is never tested by [pooling.c].

    The facts about the net are stated for a net size that is not
    negative; the other theorems have no such condition. *)

From Stdlib Require Import ZArith Lia.
From stdpp Require Import base option list gmap.

Local Open Scope Z_scope.

(** ** Enumerations of [mkldnn_types.h] used by [pooling.c] *)

Inductive mkldnn_status_t : Set :=
  | mkldnn_success
  | mkldnn_out_of_memory
  | mkldnn_try_again
  | mkldnn_invalid_arguments
  | mkldnn_not_ready
  | mkldnn_unimplemented
  | mkldnn_iterator_ends
  | mkldnn_runtime_error
  | mkldnn_not_required.

Inductive mkldnn_data_type_t : Set :=
  | mkldnn_data_type_undef
  | mkldnn_f32
  | mkldnn_s32.

Inductive mkldnn_memory_format_t : Set :=
  | mkldnn_format_undef
  | mkldnn_any
  | mkldnn_blocked
  | mkldnn_x
  | mkldnn_nc
  | mkldnn_nchw
  | mkldnn_nhwc
  | mkldnn_chwn
  | mkldnn_nChw8c.

Inductive mkldnn_prop_kind_t : Set :=
  | mkldnn_prop_kind_undef
  | mkldnn_forward_training
  | mkldnn_forward_inference
  | mkldnn_backward
  | mkldnn_backward_data.

Inductive mkldnn_alg_kind_t : Set :=
  | mkldnn_pooling_max
  | mkldnn_pooling_avg.

Inductive mkldnn_padding_kind_t : Set :=
  | mkldnn_padding_zero.

Inductive mkldnn_query_t : Set :=
  | mkldnn_query_src_pd
  | mkldnn_query_diff_src_pd
  | mkldnn_query_dst_pd
  | mkldnn_query_diff_dst_pd
  | mkldnn_query_workspace_pd.

#[global] Instance mkldnn_status_eq_dec : EqDecision mkldnn_status_t.
Proof. solve_decision. Defined.

#[global] Instance mkldnn_memory_format_eq_dec : EqDecision mkldnn_memory_format_t.
Proof. solve_decision. Defined.

#[global] Instance mkldnn_alg_kind_eq_dec : EqDecision mkldnn_alg_kind_t.
Proof. solve_decision. Defined.

(** ** The library interface

    The types are the library's handles and descriptor structures; the
    functions give, for the arguments of a call, the status the library
    returns and the value it writes through the out-pointer of the call.
    A pointer that may be [NULL] is an [option].  An [int*] argument is
    the list of the array's elements. *)

Class MklDnn : Type := {
  mkldnn_engine_t : Type;
  mkldnn_memory_desc_t : Type;
  mkldnn_pooling_desc_t : Type;
  mkldnn_primitive_desc_t : Type;
  mkldnn_primitive_t : Type;
  (** [struct mkldnn_tensor] of [mkldnn_util.h]; [pooling.c] reads its
      [prim] member only. *)
  mkldnn_tensor : Type;
  prim : mkldnn_tensor -> mkldnn_primitive_t;

  (** the [format] member of a memory descriptor *)
  md_format : mkldnn_memory_desc_t -> mkldnn_memory_format_t;

  lib_memory_desc_init :
    Z -> list Z -> mkldnn_data_type_t -> mkldnn_memory_format_t ->
    mkldnn_status_t * mkldnn_memory_desc_t;
  lib_pooling_forward_desc_init :
    mkldnn_prop_kind_t -> mkldnn_alg_kind_t ->
    mkldnn_memory_desc_t -> mkldnn_memory_desc_t ->
    list Z -> list Z -> list Z -> list Z -> mkldnn_padding_kind_t ->
    mkldnn_status_t * mkldnn_pooling_desc_t;
  lib_pooling_backward_desc_init :
    mkldnn_alg_kind_t ->
    mkldnn_memory_desc_t -> mkldnn_memory_desc_t ->
    list Z -> list Z -> list Z -> list Z -> mkldnn_padding_kind_t ->
    mkldnn_status_t * mkldnn_pooling_desc_t;
  lib_primitive_desc_create :
    mkldnn_pooling_desc_t -> mkldnn_engine_t ->
    option mkldnn_primitive_desc_t ->
    mkldnn_status_t * mkldnn_primitive_desc_t;
  lib_primitive_desc_query_pd :
    option mkldnn_primitive_desc_t -> mkldnn_query_t -> Z ->
    option mkldnn_primitive_desc_t;
  lib_primitive_desc_query_memory_d :
    option mkldnn_primitive_desc_t -> option mkldnn_memory_desc_t;
  lib_primitive_create :
    option mkldnn_primitive_desc_t ->
    list (mkldnn_primitive_t * Z) -> list mkldnn_primitive_t ->
    mkldnn_status_t * mkldnn_primitive_t;

  (** The tensor helpers of [mkldnn_util]: [None] when the helper does not
      come back (it ends the process), otherwise the tensor it stores
      through its last argument. *)
  util_create_mkldnn_tensor :
    Z -> list Z -> mkldnn_data_type_t -> mkldnn_memory_format_t ->
    mkldnn_engine_t -> option mkldnn_tensor;
  util_create_mkldnn_tensor_from_md :
    Z -> list Z -> mkldnn_memory_desc_t -> mkldnn_engine_t ->
    option mkldnn_tensor
}.

Section Pooling.

Context `{L : MklDnn}.

(** ** The kernel record and the store *)

(** Modelled from the spec: [struct mkldnn_opkernel] is declared in
    [mkldnn_util.h], which is not among the sources.  The fields are the
    ones [pooling.c] reads and writes: the primitive descriptor and the
    primitive, the input and output tensors with their counts, one
    optional reorder primitive per slot, and the net with its size. *)
Record mkldnn_opkernel : Type := {
  op_desc : option mkldnn_primitive_desc_t;
  op_prim : option mkldnn_primitive_t;
  inputs : gmap Z mkldnn_tensor;
  outputs : gmap Z mkldnn_tensor;
  num_inputs : Z;
  num_outputs : Z;
  reorder_i : gmap Z (option mkldnn_primitive_t);
  reorder_o : gmap Z (option mkldnn_primitive_t);
  net : gmap Z (option mkldnn_primitive_t);
  net_size : Z
}.

(** [mkldnn_opkernel_t] is a pointer to the record. *)
Definition mkldnn_opkernel_t : Type := Z.

Definition with_op_desc v k :=
  {| op_desc := v; op_prim := op_prim k; inputs := inputs k;
     outputs := outputs k; num_inputs := num_inputs k;
     num_outputs := num_outputs k; reorder_i := reorder_i k;
     reorder_o := reorder_o k; net := net k; net_size := net_size k |}.

Definition with_op_prim v k :=
  {| op_desc := op_desc k; op_prim := v; inputs := inputs k;
     outputs := outputs k; num_inputs := num_inputs k;
     num_outputs := num_outputs k; reorder_i := reorder_i k;
     reorder_o := reorder_o k; net := net k; net_size := net_size k |}.

Definition with_input (i : Z) t k :=
  {| op_desc := op_desc k; op_prim := op_prim k;
     inputs := <[i := t]> (inputs k);
     outputs := outputs k; num_inputs := num_inputs k;
     num_outputs := num_outputs k; reorder_i := reorder_i k;
     reorder_o := reorder_o k; net := net k; net_size := net_size k |}.

Definition with_output (i : Z) t k :=
  {| op_desc := op_desc k; op_prim := op_prim k; inputs := inputs k;
     outputs := <[i := t]> (outputs k); num_inputs := num_inputs k;
     num_outputs := num_outputs k; reorder_i := reorder_i k;
     reorder_o := reorder_o k; net := net k; net_size := net_size k |}.

Definition with_num_inputs v k :=
  {| op_desc := op_desc k; op_prim := op_prim k; inputs := inputs k;
     outputs := outputs k; num_inputs := v;
     num_outputs := num_outputs k; reorder_i := reorder_i k;
     reorder_o := reorder_o k; net := net k; net_size := net_size k |}.

Definition with_num_outputs v k :=
  {| op_desc := op_desc k; op_prim := op_prim k; inputs := inputs k;
     outputs := outputs k; num_inputs := num_inputs k;
     num_outputs := v; reorder_i := reorder_i k;
     reorder_o := reorder_o k; net := net k; net_size := net_size k |}.

Definition with_reorder_i (i : Z) v k :=
  {| op_desc := op_desc k; op_prim := op_prim k; inputs := inputs k;
     outputs := outputs k; num_inputs := num_inputs k;
     num_outputs := num_outputs k; reorder_i := <[i := v]> (reorder_i k);
     reorder_o := reorder_o k; net := net k; net_size := net_size k |}.

Definition with_reorder_o (i : Z) v k :=
  {| op_desc := op_desc k; op_prim := op_prim k; inputs := inputs k;
     outputs := outputs k; num_inputs := num_inputs k;
     num_outputs := num_outputs k; reorder_i := reorder_i k;
     reorder_o := <[i := v]> (reorder_o k); net := net k;
     net_size := net_size k |}.

(** [k->net[k->net_size++] = k->op_prim] *)
Definition net_push k :=
  {| op_desc := op_desc k; op_prim := op_prim k; inputs := inputs k;
     outputs := outputs k; num_inputs := num_inputs k;
     num_outputs := num_outputs k; reorder_i := reorder_i k;
     reorder_o := reorder_o k;
     net := <[net_size k := op_prim k]> (net k);
     net_size := net_size k + 1 |}.

(** ** The call log *)

Inductive call : Type :=
  | Call_memory_desc_init
      (ndims : Z) (dims : list Z) (data_type : mkldnn_data_type_t)
      (format : mkldnn_memory_format_t) (status : mkldnn_status_t)
  | Call_pooling_forward_desc_init
      (prop_kind : mkldnn_prop_kind_t) (alg_kind : mkldnn_alg_kind_t)
      (src_desc dst_desc : mkldnn_memory_desc_t)
      (strides kernel padding_l padding_r : list Z)
      (padding_kind : mkldnn_padding_kind_t) (status : mkldnn_status_t)
  | Call_pooling_backward_desc_init
      (alg_kind : mkldnn_alg_kind_t)
      (diff_src_desc diff_dst_desc : mkldnn_memory_desc_t)
      (strides kernel padding_l padding_r : list Z)
      (padding_kind : mkldnn_padding_kind_t) (status : mkldnn_status_t)
  | Call_primitive_desc_create
      (op : mkldnn_pooling_desc_t) (engine : mkldnn_engine_t)
      (hint : option mkldnn_primitive_desc_t) (status : mkldnn_status_t)
  | Call_primitive_desc_query_pd
      (pd : option mkldnn_primitive_desc_t) (what : mkldnn_query_t)
      (index : Z)
  | Call_primitive_desc_query_memory_d
      (pd : option mkldnn_primitive_desc_t)
  | Call_create_mkldnn_tensor
      (ndims : Z) (sizes : list Z) (data_type : mkldnn_data_type_t)
      (format : mkldnn_memory_format_t) (engine : mkldnn_engine_t)
      (returned : bool)
  | Call_create_mkldnn_tensor_from_md
      (ndims : Z) (sizes : list Z) (md : mkldnn_memory_desc_t)
      (engine : mkldnn_engine_t) (returned : bool)
  | Call_primitive_create
      (pd : option mkldnn_primitive_desc_t)
      (srcs : list (mkldnn_primitive_t * Z))
      (dsts : list mkldnn_primitive_t) (status : mkldnn_status_t).

(** ** The monad *)

Inductive result (A : Type) : Type :=
  | Ret (a : A) (h : gmap Z mkldnn_opkernel)
  | Exit (h : gmap Z mkldnn_opkernel)
  | Fault.

#[global] Arguments Ret {A} a h.
#[global] Arguments Exit {A} h.
#[global] Arguments Fault {A}.

Definition M (A : Type) : Type :=
  gmap Z mkldnn_opkernel -> list call * result A.

Definition ret {A} (a : A) : M A := fun h => ([], Ret a h).

Definition bind {A B} (m : M A) (f : A -> M B) : M B :=
  fun h =>
    match m h with
    | (l, Ret a h') => let (l', r) := f a h' in (l ++ l', r)
    | (l, Exit h') => (l, Exit h')
    | (l, Fault) => (l, Fault)
    end.

Definition log (c : call) : M unit := fun h => ([c], Ret tt h).
Definition exit {A} : M A := fun h => ([], Exit h).
Definition fault {A} : M A := fun h => ([], Fault).

(** [p->field] as an rvalue *)
Definition load (p : mkldnn_opkernel_t) : M mkldnn_opkernel :=
  fun h => match h !! p with
           | Some k => ([], Ret k h)
           | None => ([], Fault)
           end.

(** [p->field = ...] *)
Definition store (p : mkldnn_opkernel_t)
    (f : mkldnn_opkernel -> mkldnn_opkernel) : M unit :=
  fun h => match h !! p with
           | Some k => ([], Ret tt (<[p := f k]> h))
           | None => ([], Fault)
           end.

(** [*q] for a pointer [q] that may be [NULL].  The same is used to read
    an array slot: a slot that was never written has nothing to read, and
    the builders read only slots they have written. *)
Definition deref {A} (q : option A) : M A :=
  match q with
  | Some a => ret a
  | None => fault
  end.

#[local] Notation "x <- m ;; k" := (bind m (fun x => k))
  (at level 100, m at next level, right associativity).
#[local] Notation "m ;;; k" := (bind m (fun _ : unit => k))
  (at level 100, right associativity).

(** Modelled from the spec: the macro [MKL_CHECK] comes from
    [mkldnn_util.h], which is not among the sources.  It wraps a library
    call and is fatal on error: a status other than [mkldnn_success] ends
    the process on the spot; otherwise execution goes on with what the
    call wrote through its out-pointer. *)
Definition MKL_CHECK {A} (f : M (mkldnn_status_t * A)) : M A :=
  r <- f ;;
  if decide (fst r = mkldnn_success) then ret (snd r) else exit.

(** ** Calls that leave [pooling.c] *)

Definition mkldnn_memory_desc_init ndims dims data_type format
    : M (mkldnn_status_t * mkldnn_memory_desc_t) :=
  let r := lib_memory_desc_init ndims dims data_type format in
  log (Call_memory_desc_init ndims dims data_type format (fst r)) ;;;
  ret r.

Definition mkldnn_pooling_forward_desc_init prop_kind alg_kind src_desc
    dst_desc strides kernel padding_l padding_r padding_kind
    : M (mkldnn_status_t * mkldnn_pooling_desc_t) :=
  let r := lib_pooling_forward_desc_init prop_kind alg_kind src_desc
             dst_desc strides kernel padding_l padding_r padding_kind in
  log (Call_pooling_forward_desc_init prop_kind alg_kind src_desc dst_desc
         strides kernel padding_l padding_r padding_kind (fst r)) ;;;
  ret r.

Definition mkldnn_pooling_backward_desc_init alg_kind diff_src_desc
    diff_dst_desc strides kernel padding_l padding_r padding_kind
    : M (mkldnn_status_t * mkldnn_pooling_desc_t) :=
  let r := lib_pooling_backward_desc_init alg_kind diff_src_desc
             diff_dst_desc strides kernel padding_l padding_r
             padding_kind in
  log (Call_pooling_backward_desc_init alg_kind diff_src_desc
         diff_dst_desc strides kernel padding_l padding_r padding_kind
         (fst r)) ;;;
  ret r.

Definition mkldnn_primitive_desc_create op engine hint
    : M (mkldnn_status_t * mkldnn_primitive_desc_t) :=
  let r := lib_primitive_desc_create op engine hint in
  log (Call_primitive_desc_create op engine hint (fst r)) ;;;
  ret r.

Definition mkldnn_primitive_desc_query_pd pd what index
    : M (option mkldnn_primitive_desc_t) :=
  log (Call_primitive_desc_query_pd pd what index) ;;;
  ret (lib_primitive_desc_query_pd pd what index).

Definition mkldnn_primitive_desc_query_memory_d pd
    : M (option mkldnn_memory_desc_t) :=
  log (Call_primitive_desc_query_memory_d pd) ;;;
  ret (lib_primitive_desc_query_memory_d pd).

Definition mkldnn_primitive_create pd srcs dsts
    : M (mkldnn_status_t * mkldnn_primitive_t) :=
  let r := lib_primitive_create pd srcs dsts in
  log (Call_primitive_create pd srcs dsts (fst r)) ;;;
  ret r.

(** [mkldnn_primitive_at] builds the pair the library takes as a source
    of a primitive.  It reads and writes nothing else, and is not
    logged. *)
Definition mkldnn_primitive_at (primitive : mkldnn_primitive_t)
    (output_index : Z) : mkldnn_primitive_t * Z :=
  (primitive, output_index).

Definition create_mkldnn_tensor ndims sizes data_type format engine
    : M mkldnn_tensor :=
  let r := util_create_mkldnn_tensor ndims sizes data_type format engine in
  log (Call_create_mkldnn_tensor ndims sizes data_type format engine
         (match r with Some _ => true | None => false end)) ;;;
  match r with
  | Some t => ret t
  | None => exit
  end.

Definition create_mkldnn_tensor_from_md ndims sizes md engine
    : M mkldnn_tensor :=
  let r := util_create_mkldnn_tensor_from_md ndims sizes md engine in
  log (Call_create_mkldnn_tensor_from_md ndims sizes md engine
         (match r with Some _ => true | None => false end)) ;;;
  match r with
  | Some t => ret t
  | None => exit
  end.

(** ** The forward builder *)

Definition create_mkldnn_pool_fprop_kernel
    (engine : mkldnn_engine_t) (src_dims dst_dims : Z)
    (src_sizes kernel_sizes dst_sizes strides padding : list Z)
    (pool_type : Z) (input_src_md : option mkldnn_memory_desc_t)
    (data_type : mkldnn_data_type_t) (opkernel : mkldnn_opkernel_t)
    : M unit :=
  (* create data descriptors for pooling w/ no specified format *)
  mkldnn_memory_desc_src_md <-
    match input_src_md with
    | Some md => ret md
    | None =>
        MKL_CHECK (mkldnn_memory_desc_init src_dims src_sizes data_type
                     mkldnn_chwn)
    end ;;
  mkldnn_memory_desc_dst_md <-
    MKL_CHECK (mkldnn_memory_desc_init dst_dims dst_sizes data_type
                 mkldnn_any) ;;
  (* create a pooling descriptor - logical description of pooling *)
  pool_any_desc <-
    (if decide (pool_type = 0) then
       MKL_CHECK (mkldnn_pooling_forward_desc_init
                    mkldnn_forward_training mkldnn_pooling_max
                    mkldnn_memory_desc_src_md mkldnn_memory_desc_dst_md
                    strides kernel_sizes padding padding
                    mkldnn_padding_zero)
     else
       MKL_CHECK (mkldnn_pooling_forward_desc_init
                    mkldnn_forward_training mkldnn_pooling_avg
                    mkldnn_memory_desc_src_md mkldnn_memory_desc_dst_md
                    strides kernel_sizes padding padding
                    mkldnn_padding_zero)) ;;
  (* create a pooling primitive descriptor - pooling descriptor bound to
     the CPU engine *)
  pd <- MKL_CHECK (mkldnn_primitive_desc_create pool_any_desc engine None) ;;
  store opkernel (with_op_desc (Some pd)) ;;;
  k <- load opkernel ;;
  kernel_src_pd <-
    mkldnn_primitive_desc_query_pd (op_desc k) mkldnn_query_src_pd 0 ;;
  k <- load opkernel ;;
  kernel_dst_pd <-
    mkldnn_primitive_desc_query_pd (op_desc k) mkldnn_query_dst_pd 0 ;;
  t <-
    match input_src_md with
    | Some md => create_mkldnn_tensor_from_md src_dims src_sizes md engine
    | None =>
        create_mkldnn_tensor src_dims src_sizes data_type mkldnn_chwn
          engine
    end ;;
  store opkernel (with_input 0 t) ;;;
  q <- mkldnn_primitive_desc_query_memory_d kernel_dst_pd ;;
  dst_md <- deref q ;;
  t <- create_mkldnn_tensor_from_md dst_dims dst_sizes dst_md engine ;;
  store opkernel (with_output 0 t) ;;;
  store opkernel (with_num_inputs 1) ;;;
  store opkernel (with_num_outputs 1) ;;;
  (* No reorder on the input/output side *)
  store opkernel (with_reorder_i 0 None) ;;;
  store opkernel (with_reorder_o 0 None) ;;;
  (* Workspace for max pooling *)
  (if decide (pool_type = 0) then
     store opkernel (with_num_outputs 2) ;;;
     k <- load opkernel ;;
     kernel_argmax_pd <-
       mkldnn_primitive_desc_query_pd (op_desc k)
         mkldnn_query_workspace_pd 0 ;;
     q <- mkldnn_primitive_desc_query_memory_d kernel_argmax_pd ;;
     md <- deref q ;;
     t <- create_mkldnn_tensor_from_md dst_dims dst_sizes md engine ;;
     store opkernel (with_output 1 t) ;;;
     store opkernel (with_reorder_o 1 None)
   else ret tt) ;;;
  k <- load opkernel ;;
  out0 <- deref (outputs k !! 0) ;;
  pool_dsts <-
    (if decide (pool_type = 0) then
       k <- load opkernel ;;
       out1 <- deref (outputs k !! 1) ;;
       ret [prim out0; prim out1]
     else ret [prim out0]) ;;
  k <- load opkernel ;;
  in0 <- deref (inputs k !! 0) ;;
  let pool_srcs := [mkldnn_primitive_at (prim in0) 0] in
  (* create a pooling primitive *)
  k <- load opkernel ;;
  p <- MKL_CHECK (mkldnn_primitive_create (op_desc k) pool_srcs pool_dsts) ;;
  store opkernel (with_op_prim (Some p)) ;;;
  store opkernel net_push.

(** ** The backward builder *)

Definition create_mkldnn_pool_bprop_kernel
    (engine : mkldnn_engine_t) (src_dims dst_dims : Z)
    (src_sizes kernel_sizes dst_sizes strides padding : list Z)
    (pool_type : Z) (input_src_md : option mkldnn_memory_desc_t)
    (data_type : mkldnn_data_type_t)
    (fprop_opkernel opkernel : mkldnn_opkernel_t) : M unit :=
  (* create data descriptors for pooling w/ no specified format *)
  mkldnn_memory_desc_src_md <-
    match input_src_md with
    | Some md => ret md
    | None =>
        MKL_CHECK (mkldnn_memory_desc_init src_dims src_sizes data_type
                     mkldnn_chwn)
    end ;;
  mkldnn_memory_desc_dst_md <-
    MKL_CHECK (mkldnn_memory_desc_init dst_dims dst_sizes data_type
                 mkldnn_any) ;;
  (* create a pooling descriptor - logical description of pooling *)
  pool_any_desc <-
    (if decide (pool_type = 0) then
       MKL_CHECK (mkldnn_pooling_backward_desc_init mkldnn_pooling_max
                    mkldnn_memory_desc_dst_md mkldnn_memory_desc_src_md
                    strides kernel_sizes padding padding
                    mkldnn_padding_zero)
     else
       MKL_CHECK (mkldnn_pooling_backward_desc_init mkldnn_pooling_avg
                    mkldnn_memory_desc_dst_md mkldnn_memory_desc_src_md
                    strides kernel_sizes padding padding
                    mkldnn_padding_zero)) ;;
  (* create a pooling primitive descriptor - pooling descriptor bound to
     the CPU engine *)
  fk <- load fprop_opkernel ;;
  pd <- MKL_CHECK (mkldnn_primitive_desc_create pool_any_desc engine
                     (op_desc fk)) ;;
  store opkernel (with_op_desc (Some pd)) ;;;
  k <- load opkernel ;;
  kernel_src_pd <-
    mkldnn_primitive_desc_query_pd (op_desc k) mkldnn_query_diff_dst_pd 0 ;;
  k <- load opkernel ;;
  kernel_dst_pd <-
    mkldnn_primitive_desc_query_pd (op_desc k) mkldnn_query_diff_src_pd 0 ;;
  t <-
    match input_src_md with
    | Some md => create_mkldnn_tensor_from_md src_dims src_sizes md engine
    | None =>
        create_mkldnn_tensor src_dims src_sizes data_type mkldnn_chwn
          engine
    end ;;
  store opkernel (with_input 0 t) ;;;
  q <- mkldnn_primitive_desc_query_memory_d kernel_dst_pd ;;
  dst_md <- deref q ;;
  t <- create_mkldnn_tensor_from_md dst_dims dst_sizes dst_md engine ;;
  store opkernel (with_output 0 t) ;;;
  store opkernel (with_num_inputs 1) ;;;
  store opkernel (with_num_outputs 1) ;;;
  (* No reorder on the input/output side *)
  store opkernel (with_reorder_i 0 None) ;;;
  store opkernel (with_reorder_o 0 None) ;;;
  (* Workspace for max pooling *)
  (if decide (pool_type = 0) then
     store opkernel (with_num_inputs 2) ;;;
     k <- load opkernel ;;
     kernel_argmax_pd <-
       mkldnn_primitive_desc_query_pd (op_desc k)
         mkldnn_query_workspace_pd 0 ;;
     q <- mkldnn_primitive_desc_query_memory_d kernel_argmax_pd ;;
     md <- deref q ;;
     t <- create_mkldnn_tensor_from_md src_dims src_sizes md engine ;;
     store opkernel (with_input 1 t) ;;;
     store opkernel (with_reorder_i 1 None)
   else ret tt) ;;;
  k <- load opkernel ;;
  in0 <- deref (inputs k !! 0) ;;
  pool_srcs <-
    (if decide (pool_type = 0) then
       k <- load opkernel ;;
       in1 <- deref (inputs k !! 1) ;;
       ret [mkldnn_primitive_at (prim in0) 0;
            mkldnn_primitive_at (prim in1) 0]
     else ret [mkldnn_primitive_at (prim in0) 0]) ;;
  k <- load opkernel ;;
  out0 <- deref (outputs k !! 0) ;;
  let pool_dsts := [mkldnn_primitive_at (prim out0) 0] in
  (* create a pooling primitive; [pool_dsts] is declared with the element
     type of [pool_srcs] here and read by the library as an array of
     primitives, that is, through the first member of each element *)
  k <- load opkernel ;;
  p <- MKL_CHECK (mkldnn_primitive_create (op_desc k) pool_srcs
                    (fst <$> pool_dsts)) ;;
  store opkernel (with_op_prim (Some p)) ;;;
  store opkernel net_push.

(** ** What is observed of a run *)

(** [post m h Q]: the run of [m] from the store [h] ends with a call log
    and a result that satisfy [Q]. *)
Definition post {A} (m : M A) (h : gmap Z mkldnn_opkernel)
    (Q : list call -> result A -> Prop) : Prop :=
  Q (m h).1 (m h).2.

(** A call that did not succeed: a status other than [mkldnn_success], or
    a tensor helper that did not come back.  The two queries return a
    pointer and have no status. *)
Definition failed (c : call) : Prop :=
  match c with
  | Call_memory_desc_init _ _ _ _ st
  | Call_pooling_forward_desc_init _ _ _ _ _ _ _ _ _ st
  | Call_pooling_backward_desc_init _ _ _ _ _ _ _ _ st
  | Call_primitive_desc_create _ _ _ st
  | Call_primitive_create _ _ _ st => st <> mkldnn_success
  | Call_create_mkldnn_tensor _ _ _ _ _ returned
  | Call_create_mkldnn_tensor_from_md _ _ _ _ returned => returned = false
  | Call_primitive_desc_query_pd _ _ _
  | Call_primitive_desc_query_memory_d _ => False
  end.

(** The net of a kernel as a sequence: the slots [0 .. net_size - 1]. *)
Definition net_entries (k : mkldnn_opkernel)
    : list (option (option mkldnn_primitive_t)) :=
  (fun i : Z => net k !! i) <$> seqZ 0 (net_size k).

(** No kernel of the store has a different net in [h'] than in [h]. *)
Definition nets_unchanged (h h' : gmap Z mkldnn_opkernel) : Prop :=
  forall q : Z,
    (fun k => (net k, net_size k)) <$> h' !! q =
    (fun k => (net k, net_size k)) <$> h !! q.

(** The layout a kernel's primitive descriptor reports for one of its
    roles: the query the builders themselves use to materialise the
    output tensor. *)
Definition resolved_layout (k : mkldnn_opkernel) (what : mkldnn_query_t)
    : option mkldnn_memory_format_t :=
  md_format <$>
    lib_primitive_desc_query_memory_d
      (lib_primitive_desc_query_pd (op_desc k) what 0).

(** Modelled from the spec: the engine that resolves layouts is the
    MKL-DNN library, which is not among the sources.  The specification
    has it resolve an automatic layout to a concrete one when the
    primitive descriptor is created, and has the backward builder pass the
    forward primitive descriptor as a hint so that the engine resolves
    the layouts of the backward pass consistently with those of the
    forward pass.  Here: let a forward primitive descriptor be created
    from a source descriptor initialised with some layout, and let a
    backward primitive descriptor be created, with that forward
    descriptor as hint, from a gradient-of-destination descriptor
    initialised with the same layout and a gradient-of-source descriptor
    initialised with the automatic layout; then the layout the backward
    descriptor reports for the gradient of the source is the layout the
    forward descriptor reports for the source. *)
Definition engine_propagates_layouts : Prop :=
  forall fmt n_s sz_s dt_s src ak dst st k pl pr pad op_f e pd_f
         n_dd sz_dd dt_dd diff_dst n_ds sz_ds dt_ds diff_src
         ak' st' k' pl' pr' pad' op_b e' pd_b,
    lib_memory_desc_init n_s sz_s dt_s fmt = (mkldnn_success, src) ->
    lib_pooling_forward_desc_init mkldnn_forward_training ak src dst
      st k pl pr pad = (mkldnn_success, op_f) ->
    lib_primitive_desc_create op_f e None = (mkldnn_success, pd_f) ->
    lib_memory_desc_init n_dd sz_dd dt_dd fmt
      = (mkldnn_success, diff_dst) ->
    lib_memory_desc_init n_ds sz_ds dt_ds mkldnn_any
      = (mkldnn_success, diff_src) ->
    lib_pooling_backward_desc_init ak' diff_src diff_dst st' k' pl' pr'
      pad' = (mkldnn_success, op_b) ->
    lib_primitive_desc_create op_b e' (Some pd_f)
      = (mkldnn_success, pd_b) ->
    md_format <$>
      lib_primitive_desc_query_memory_d
        (lib_primitive_desc_query_pd (Some pd_b) mkldnn_query_diff_src_pd 0)
    = md_format <$>
        lib_primitive_desc_query_memory_d
          (lib_primitive_desc_query_pd (Some pd_f) mkldnn_query_src_pd 0).

(** The store a run returned with, if it returned. *)
Definition returned {A} (x : list call * result A)
    : option (gmap Z mkldnn_opkernel) :=
  match x.2 with
  | Ret _ h => Some h
  | _ => None
  end.

(** ** The shape of a run

    For given arguments: the calls a builder can make, and the kernel
    record and library answers of a run that returns. *)

Section Shapes.

Variables (engine : mkldnn_engine_t) (src_dims dst_dims : Z)
  (src_sizes kernel_sizes dst_sizes strides padding : list Z)
  (pool_type : Z) (input_src_md : option mkldnn_memory_desc_t)
  (data_type : mkldnn_data_type_t).

Inductive fprop_call : call -> Prop :=
  | fprop_call_src_md st :
      input_src_md = None ->
      fprop_call
        (Call_memory_desc_init src_dims src_sizes data_type mkldnn_chwn st)
  | fprop_call_dst_md st :
      fprop_call
        (Call_memory_desc_init dst_dims dst_sizes data_type mkldnn_any st)
  | fprop_call_pooling alg src_md st :
      alg = (if decide (pool_type = 0) then mkldnn_pooling_max
             else mkldnn_pooling_avg) ->
      src_md = match input_src_md with
               | Some md => md
               | None =>
                   (lib_memory_desc_init src_dims src_sizes data_type
                      mkldnn_chwn).2
               end ->
      fprop_call
        (Call_pooling_forward_desc_init mkldnn_forward_training alg src_md
           (lib_memory_desc_init dst_dims dst_sizes data_type mkldnn_any).2
           strides kernel_sizes padding padding mkldnn_padding_zero st)
  | fprop_call_pd op st :
      fprop_call (Call_primitive_desc_create op engine None st)
  | fprop_call_query_pd pd what :
      (what = mkldnn_query_workspace_pd -> pool_type = 0) ->
      fprop_call (Call_primitive_desc_query_pd pd what 0)
  | fprop_call_query_md pd :
      fprop_call (Call_primitive_desc_query_memory_d pd)
  | fprop_call_tensor b :
      input_src_md = None ->
      fprop_call
        (Call_create_mkldnn_tensor src_dims src_sizes data_type mkldnn_chwn
           engine b)
  | fprop_call_tensor_src md b :
      input_src_md = Some md ->
      fprop_call
        (Call_create_mkldnn_tensor_from_md src_dims src_sizes md engine b)
  | fprop_call_tensor_dst md b :
      fprop_call
        (Call_create_mkldnn_tensor_from_md dst_dims dst_sizes md engine b)
  | fprop_call_prim pd srcs dsts st :
      fprop_call (Call_primitive_create pd srcs dsts st).

Inductive bprop_call (fwd : option mkldnn_opkernel)
    : call -> Prop :=
  | bprop_call_src_md st :
      input_src_md = None ->
      bprop_call fwd
        (Call_memory_desc_init src_dims src_sizes data_type mkldnn_chwn st)
  | bprop_call_dst_md st :
      bprop_call fwd
        (Call_memory_desc_init dst_dims dst_sizes data_type mkldnn_any st)
  | bprop_call_pooling alg src_md st :
      alg = (if decide (pool_type = 0) then mkldnn_pooling_max
             else mkldnn_pooling_avg) ->
      src_md = match input_src_md with
               | Some md => md
               | None =>
                   (lib_memory_desc_init src_dims src_sizes data_type
                      mkldnn_chwn).2
               end ->
      bprop_call fwd
        (Call_pooling_backward_desc_init alg
           (lib_memory_desc_init dst_dims dst_sizes data_type mkldnn_any).2
           src_md strides kernel_sizes padding padding mkldnn_padding_zero
           st)
  | bprop_call_pd fk op st :
      fwd = Some fk ->
      bprop_call fwd
        (Call_primitive_desc_create op engine (op_desc fk) st)
  | bprop_call_query_pd pd what :
      (what = mkldnn_query_workspace_pd -> pool_type = 0) ->
      bprop_call fwd (Call_primitive_desc_query_pd pd what 0)
  | bprop_call_query_md pd :
      bprop_call fwd (Call_primitive_desc_query_memory_d pd)
  | bprop_call_tensor b :
      input_src_md = None ->
      bprop_call fwd
        (Call_create_mkldnn_tensor src_dims src_sizes data_type mkldnn_chwn
           engine b)
  | bprop_call_tensor_src md b :
      bprop_call fwd
        (Call_create_mkldnn_tensor_from_md src_dims src_sizes md engine b)
  | bprop_call_tensor_dst md b :
      bprop_call fwd
        (Call_create_mkldnn_tensor_from_md dst_dims dst_sizes md engine b)
  | bprop_call_prim pd srcs dsts st :
      bprop_call fwd (Call_primitive_create pd srcs dsts st).

(** The record a forward run leaves behind, from the record [k] it found:
    [ws] is the workspace tensor of max pooling. *)
Definition fprop_record (k : mkldnn_opkernel)
    (pd : mkldnn_primitive_desc_t) (t_in t_out : mkldnn_tensor)
    (ws : option mkldnn_tensor) (p : mkldnn_primitive_t)
    : mkldnn_opkernel :=
  {| op_desc := Some pd;
     op_prim := Some p;
     inputs := <[0 := t_in]> (inputs k);
     outputs := match ws with
                | Some t => <[1 := t]> (<[0 := t_out]> (outputs k))
                | None => <[0 := t_out]> (outputs k)
                end;
     num_inputs := 1;
     num_outputs := match ws with Some _ => 2 | None => 1 end;
     reorder_i := <[0 := None]> (reorder_i k);
     reorder_o := match ws with
                  | Some _ => <[1 := None]> (<[0 := None]> (reorder_o k))
                  | None => <[0 := None]> (reorder_o k)
                  end;
     net := <[net_size k := Some p]> (net k);
     net_size := net_size k + 1 |}.

Definition bprop_record (k : mkldnn_opkernel)
    (pd : mkldnn_primitive_desc_t) (t_in t_out : mkldnn_tensor)
    (ws : option mkldnn_tensor) (p : mkldnn_primitive_t)
    : mkldnn_opkernel :=
  {| op_desc := Some pd;
     op_prim := Some p;
     inputs := match ws with
               | Some t => <[1 := t]> (<[0 := t_in]> (inputs k))
               | None => <[0 := t_in]> (inputs k)
               end;
     outputs := <[0 := t_out]> (outputs k);
     num_inputs := match ws with Some _ => 2 | None => 1 end;
     num_outputs := 1;
     reorder_i := match ws with
                  | Some _ => <[1 := None]> (<[0 := None]> (reorder_i k))
                  | None => <[0 := None]> (reorder_i k)
                  end;
     reorder_o := <[0 := None]> (reorder_o k);
     net := <[net_size k := Some p]> (net k);
     net_size := net_size k + 1 |}.

(** The library answers behind a forward run that returns. *)
Definition fprop_answers (src_md dst_md : mkldnn_memory_desc_t)
    (op : mkldnn_pooling_desc_t) (pd : mkldnn_primitive_desc_t)
    (t_in : mkldnn_tensor) (md_out : mkldnn_memory_desc_t)
    (t_out : mkldnn_tensor) (ws : option mkldnn_tensor)
    (p : mkldnn_primitive_t) : Prop :=
  match input_src_md with
  | Some md =>
      src_md = md /\
      util_create_mkldnn_tensor_from_md src_dims src_sizes md engine
        = Some t_in
  | None =>
      lib_memory_desc_init src_dims src_sizes data_type mkldnn_chwn
        = (mkldnn_success, src_md) /\
      util_create_mkldnn_tensor src_dims src_sizes data_type mkldnn_chwn
        engine = Some t_in
  end /\
  lib_memory_desc_init dst_dims dst_sizes data_type mkldnn_any
    = (mkldnn_success, dst_md) /\
  lib_pooling_forward_desc_init mkldnn_forward_training
    (if decide (pool_type = 0) then mkldnn_pooling_max
     else mkldnn_pooling_avg)
    src_md dst_md strides kernel_sizes padding padding mkldnn_padding_zero
    = (mkldnn_success, op) /\
  lib_primitive_desc_create op engine None = (mkldnn_success, pd) /\
  lib_primitive_desc_query_memory_d
    (lib_primitive_desc_query_pd (Some pd) mkldnn_query_dst_pd 0)
    = Some md_out /\
  util_create_mkldnn_tensor_from_md dst_dims dst_sizes md_out engine
    = Some t_out /\
  (if decide (pool_type = 0) then
     exists md_ws t_ws,
       lib_primitive_desc_query_memory_d
         (lib_primitive_desc_query_pd (Some pd) mkldnn_query_workspace_pd 0)
         = Some md_ws /\
       util_create_mkldnn_tensor_from_md dst_dims dst_sizes md_ws engine
         = Some t_ws /\
       ws = Some t_ws
   else ws = None) /\
  lib_primitive_create (Some pd) [mkldnn_primitive_at (prim t_in) 0]
    (prim t_out :: match ws with Some t => [prim t] | None => [] end)
    = (mkldnn_success, p).

(** The library answers behind a backward run that returns; [hint] is the
    primitive descriptor of the forward kernel. *)
Definition bprop_answers (hint : option mkldnn_primitive_desc_t)
    (src_md dst_md : mkldnn_memory_desc_t)
    (op : mkldnn_pooling_desc_t) (pd : mkldnn_primitive_desc_t)
    (t_in : mkldnn_tensor) (md_out : mkldnn_memory_desc_t)
    (t_out : mkldnn_tensor) (ws : option mkldnn_tensor)
    (p : mkldnn_primitive_t) : Prop :=
  match input_src_md with
  | Some md =>
      src_md = md /\
      util_create_mkldnn_tensor_from_md src_dims src_sizes md engine
        = Some t_in
  | None =>
      lib_memory_desc_init src_dims src_sizes data_type mkldnn_chwn
        = (mkldnn_success, src_md) /\
      util_create_mkldnn_tensor src_dims src_sizes data_type mkldnn_chwn
        engine = Some t_in
  end /\
  lib_memory_desc_init dst_dims dst_sizes data_type mkldnn_any
    = (mkldnn_success, dst_md) /\
  lib_pooling_backward_desc_init
    (if decide (pool_type = 0) then mkldnn_pooling_max
     else mkldnn_pooling_avg)
    dst_md src_md strides kernel_sizes padding padding mkldnn_padding_zero
    = (mkldnn_success, op) /\
  lib_primitive_desc_create op engine hint = (mkldnn_success, pd) /\
  lib_primitive_desc_query_memory_d
    (lib_primitive_desc_query_pd (Some pd) mkldnn_query_diff_src_pd 0)
    = Some md_out /\
  util_create_mkldnn_tensor_from_md dst_dims dst_sizes md_out engine
    = Some t_out /\
  (if decide (pool_type = 0) then
     exists md_ws t_ws,
       lib_primitive_desc_query_memory_d
         (lib_primitive_desc_query_pd (Some pd) mkldnn_query_workspace_pd 0)
         = Some md_ws /\
       util_create_mkldnn_tensor_from_md src_dims src_sizes md_ws engine
         = Some t_ws /\
       ws = Some t_ws
   else ws = None) /\
  lib_primitive_create (Some pd)
    (mkldnn_primitive_at (prim t_in) 0 ::
       match ws with
       | Some t => [mkldnn_primitive_at (prim t) 0]
       | None => []
       end)
    [prim t_out]
    = (mkldnn_success, p).

End Shapes.

(** ** The order of the calls *)

(** Which function a call of the log went to. *)
Inductive call_kind : Set :=
  | To_memory_desc_init
  | To_pooling_forward_desc_init
  | To_pooling_backward_desc_init
  | To_primitive_desc_create
  | To_primitive_desc_query_pd
  | To_primitive_desc_query_memory_d
  | To_create_mkldnn_tensor
  | To_create_mkldnn_tensor_from_md
  | To_primitive_create.

Definition kind_of (c : call) : call_kind :=
  match c with
  | Call_memory_desc_init _ _ _ _ _ => To_memory_desc_init
  | Call_pooling_forward_desc_init _ _ _ _ _ _ _ _ _ _ =>
      To_pooling_forward_desc_init
  | Call_pooling_backward_desc_init _ _ _ _ _ _ _ _ _ =>
      To_pooling_backward_desc_init
  | Call_primitive_desc_create _ _ _ _ => To_primitive_desc_create
  | Call_primitive_desc_query_pd _ _ _ => To_primitive_desc_query_pd
  | Call_primitive_desc_query_memory_d _ =>
      To_primitive_desc_query_memory_d
  | Call_create_mkldnn_tensor _ _ _ _ _ _ => To_create_mkldnn_tensor
  | Call_create_mkldnn_tensor_from_md _ _ _ _ _ =>
      To_create_mkldnn_tensor_from_md
  | Call_primitive_create _ _ _ _ => To_primitive_create
  end.

(** The functions a builder calls, in the order of its statements, when
    every call succeeds: [pooling] is the descriptor initialisation of the
    builder, [caller_layout] tells whether [input_src_md] is not [NULL],
    [max] whether [pool_type == 0]. *)
Definition calls_in_order (pooling : call_kind) (caller_layout max : bool)
    : list call_kind :=
  (if caller_layout then [] else [To_memory_desc_init]) ++
  [To_memory_desc_init; pooling; To_primitive_desc_create;
   To_primitive_desc_query_pd; To_primitive_desc_query_pd;
   (if caller_layout then To_create_mkldnn_tensor_from_md
    else To_create_mkldnn_tensor);
   To_primitive_desc_query_memory_d; To_create_mkldnn_tensor_from_md] ++
  (if max then
     [To_primitive_desc_query_pd; To_primitive_desc_query_memory_d;
      To_create_mkldnn_tensor_from_md]
   else []) ++
  [To_primitive_create].

(** The tensors in the first [n] slots of an array of tensors. *)
Definition tensors_upto (a : gmap Z mkldnn_tensor) (n : Z)
    : list mkldnn_tensor :=
  omap (fun i : Z => a !! i) (seqZ 0 n).

End Pooling.

#[global] Arguments mkldnn_opkernel {L}.
#[global] Arguments call {L}.
#[global] Arguments result {L} A.
#[global] Arguments M {L} A.
#[global] Arguments post : simpl never.
#[global] Arguments fprop_call {L}.
#[global] Arguments bprop_call {L}.

(** ** A model of the library

    One implementation of the interface, used to run the builders on
    concrete arguments.  Descriptors are plain records; a primitive
    descriptor is created for every pooling descriptor, and an automatic
    layout is resolved at that point to the blocked layout the engine
    prefers.  [mkldnn_memory_desc_init] refuses a rank that does not match
    the extents.  A second engine, [negotiating], differs only in how it
    resolves the automatic layout. *)

Module Model.

Record memory_desc : Type := {
  ndims : Z;
  dims : list Z;
  data_type : mkldnn_data_type_t;
  format : mkldnn_memory_format_t
}.

Record pooling_desc : Type := {
  prop_kind : mkldnn_prop_kind_t;
  alg_kind : mkldnn_alg_kind_t;
  src_desc : memory_desc;      (* source, or gradient of the source *)
  dst_desc : memory_desc;      (* destination, or its gradient *)
  strides : list Z;
  kernel : list Z;
  padding_l : list Z;
  padding_r : list Z;
  padding_kind : mkldnn_padding_kind_t
}.

Inductive primitive_desc : Type :=
  | Pooling_pd (d : pooling_desc)
  | Memory_pd (md : memory_desc).

#[local] Unset Elimination Schemes.

Inductive primitive : Type :=
  | Memory_prim (md : memory_desc)
  | Pooling_prim (d : pooling_desc) (srcs : list (primitive * Z))
      (dsts : list primitive).

#[local] Set Elimination Schemes.

Record tensor : Type := {
  t_ndims : Z;
  t_sizes : list Z;
  t_md : memory_desc;
  t_prim : primitive
}.

Definition memory_desc_init (n : Z) (ds : list Z) (dt : mkldnn_data_type_t)
    (fmt : mkldnn_memory_format_t) : mkldnn_status_t * memory_desc :=
  let md := {| ndims := n; dims := ds; data_type := dt; format := fmt |} in
  if decide (Z.of_nat (length ds) = n) then (mkldnn_success, md)
  else (mkldnn_invalid_arguments, md).

Definition resolve (md : memory_desc) : memory_desc :=
  if decide (format md = mkldnn_any) then
    {| ndims := ndims md; dims := dims md; data_type := data_type md;
       format := mkldnn_nChw8c |}
  else md.

Definition primitive_desc_create (d : pooling_desc) (e : unit)
    (hint : option primitive_desc) : mkldnn_status_t * primitive_desc :=
  (mkldnn_success,
   Pooling_pd
     {| prop_kind := prop_kind d; alg_kind := alg_kind d;
        src_desc := resolve (src_desc d); dst_desc := resolve (dst_desc d);
        strides := strides d; kernel := kernel d;
        padding_l := padding_l d; padding_r := padding_r d;
        padding_kind := padding_kind d |}).

Definition workspace_desc (d : pooling_desc) : memory_desc :=
  {| ndims := ndims (dst_desc d); dims := dims (dst_desc d);
     data_type := mkldnn_s32; format := format (dst_desc d) |}.

Definition query_pd (pd : option primitive_desc) (what : mkldnn_query_t)
    (index : Z) : option primitive_desc :=
  match pd with
  | Some (Pooling_pd d) =>
      if decide (index = 0) then
        match prop_kind d, what with
        | mkldnn_backward_data, mkldnn_query_diff_src_pd =>
            Some (Memory_pd (src_desc d))
        | mkldnn_backward_data, mkldnn_query_diff_dst_pd =>
            Some (Memory_pd (dst_desc d))
        | mkldnn_backward_data, mkldnn_query_workspace_pd
        | mkldnn_forward_training, mkldnn_query_workspace_pd =>
            if decide (alg_kind d = mkldnn_pooling_max)
            then Some (Memory_pd (workspace_desc d)) else None
        | mkldnn_forward_training, mkldnn_query_src_pd
        | mkldnn_forward_inference, mkldnn_query_src_pd =>
            Some (Memory_pd (src_desc d))
        | mkldnn_forward_training, mkldnn_query_dst_pd
        | mkldnn_forward_inference, mkldnn_query_dst_pd =>
            Some (Memory_pd (dst_desc d))
        | _, _ => None
        end
      else None
  | _ => None
  end.

Definition query_memory_d (pd : option primitive_desc)
    : option memory_desc :=
  match pd with
  | Some (Memory_pd md) => Some md
  | _ => None
  end.

Definition primitive_create (pd : option primitive_desc)
    (srcs : list (primitive * Z)) (dsts : list primitive)
    : mkldnn_status_t * primitive :=
  match pd with
  | Some (Pooling_pd d) => (mkldnn_success, Pooling_prim d srcs dsts)
  | Some (Memory_pd md) => (mkldnn_invalid_arguments, Memory_prim md)
  | None =>
      (mkldnn_invalid_arguments,
       Memory_prim {| ndims := 0; dims := []; data_type := mkldnn_data_type_undef;
                      format := mkldnn_format_undef |})
  end.

Definition tensor_from_md (n : Z) (sizes : list Z) (md : memory_desc)
    (e : unit) : option tensor :=
  Some {| t_ndims := n; t_sizes := sizes; t_md := md;
          t_prim := Memory_prim md |}.

Definition tensor_of (n : Z) (sizes : list Z) (dt : mkldnn_data_type_t)
    (fmt : mkldnn_memory_format_t) (e : unit) : option tensor :=
  tensor_from_md n sizes
    {| ndims := n; dims := sizes; data_type := dt; format := fmt |} e.

#[global] Instance lib : MklDnn := {|
  mkldnn_engine_t := unit;
  mkldnn_memory_desc_t := memory_desc;
  mkldnn_pooling_desc_t := pooling_desc;
  mkldnn_primitive_desc_t := primitive_desc;
  mkldnn_primitive_t := primitive;
  mkldnn_tensor := tensor;
  prim := t_prim;
  md_format := format;
  lib_memory_desc_init := memory_desc_init;
  lib_pooling_forward_desc_init := fun pk ak s d st k pl pr pad =>
    (mkldnn_success,
     {| prop_kind := pk; alg_kind := ak; src_desc := s; dst_desc := d;
        strides := st; kernel := k; padding_l := pl; padding_r := pr;
        padding_kind := pad |});
  lib_pooling_backward_desc_init := fun ak s d st k pl pr pad =>
    (mkldnn_success,
     {| prop_kind := mkldnn_backward_data; alg_kind := ak; src_desc := s;
        dst_desc := d; strides := st; kernel := k; padding_l := pl;
        padding_r := pr; padding_kind := pad |});
  lib_primitive_desc_create := primitive_desc_create;
  lib_primitive_desc_query_pd := query_pd;
  lib_primitive_desc_query_memory_d := query_memory_d;
  lib_primitive_create := primitive_create;
  util_create_mkldnn_tensor := tensor_of;
  util_create_mkldnn_tensor_from_md := tensor_from_md
|}.

(** A kernel record nothing was stored in yet. *)
Definition empty_kernel : mkldnn_opkernel :=
  {| op_desc := None; op_prim := None; inputs := ∅; outputs := ∅;
     num_inputs := 0; num_outputs := 0; reorder_i := ∅; reorder_o := ∅;
     net := ∅; net_size := 0 |}.

(** The scenario of the specification: source extents [8,16,32,32],
    window [2,2], stride [2,2], padding [0,0], destination extents
    [8,16,16,16]; the kernels are at addresses 1 and 2. *)
Definition heap0 : gmap Z mkldnn_opkernel :=
  <[1 := empty_kernel]> (<[2 := empty_kernel]> ∅).

Abbreviation fprop pool_type md p :=
  (create_mkldnn_pool_fprop_kernel (L := lib) tt 4 4 [8; 16; 32; 32] [2; 2]
     [8; 16; 16; 16] [2; 2] [0; 0] pool_type md mkldnn_f32 p).

Abbreviation bprop pool_type md fp p :=
  (create_mkldnn_pool_bprop_kernel (L := lib) tt 4 4 [8; 16; 16; 16] [2; 2]
     [8; 16; 32; 32] [2; 2] [0; 0] pool_type md mkldnn_f32 fp p).

(** The store after the forward kernel of max pooling was built at
    address 1. *)
Definition heap1 : gmap Z mkldnn_opkernel :=
  default ∅ (returned (fprop 0 None 1 heap0)).

(** A pooling whose source and destination have the same extents (window
    [1,1], stride [1,1]), so that both builders can be given the very same
    arguments. *)
Abbreviation same_fprop pool_type p :=
  (create_mkldnn_pool_fprop_kernel (L := lib) tt 4 4 [8; 16; 32; 32] [1; 1]
     [8; 16; 32; 32] [1; 1] [0; 0] pool_type None mkldnn_f32 p).

Abbreviation same_bprop pool_type fp p :=
  (create_mkldnn_pool_bprop_kernel (L := lib) tt 4 4 [8; 16; 32; 32] [1; 1]
     [8; 16; 32; 32] [1; 1] [0; 0] pool_type None mkldnn_f32 fp p).

(** Calls with a source rank that does not match the source extents. *)
Abbreviation bad_fprop p :=
  (create_mkldnn_pool_fprop_kernel (L := lib) tt 3 4 [8; 16; 32; 32] [2; 2]
     [8; 16; 16; 16] [2; 2] [0; 0] 0 None mkldnn_f32 p).

Abbreviation bad_bprop fp p :=
  (create_mkldnn_pool_bprop_kernel (L := lib) tt 3 4 [8; 16; 16; 16] [2; 2]
     [8; 16; 32; 32] [2; 2] [0; 0] 0 None mkldnn_f32 fp p).

(** A second engine, which negotiates layouts: an automatic layout is
    resolved to the layout the hint has for the same side when a hint is
    given, and otherwise to the layout of the other side of the pooling
    descriptor.  Everything else is as in [lib]. *)
Definition resolve_to (fmt : mkldnn_memory_format_t) (md : memory_desc)
    : memory_desc :=
  if decide (format md = mkldnn_any) then
    {| ndims := ndims md; dims := dims md; data_type := data_type md;
       format := fmt |}
  else md.

Definition negotiated_desc_create (d : pooling_desc) (e : unit)
    (hint : option primitive_desc) : mkldnn_status_t * primitive_desc :=
  let fmts :=
    match hint with
    | Some (Pooling_pd f) => (format (src_desc f), format (dst_desc f))
    | _ => (format (dst_desc d), format (src_desc d))
    end in
  (mkldnn_success,
   Pooling_pd
     {| prop_kind := prop_kind d; alg_kind := alg_kind d;
        src_desc := resolve_to fmts.1 (src_desc d);
        dst_desc := resolve_to fmts.2 (dst_desc d);
        strides := strides d; kernel := kernel d;
        padding_l := padding_l d; padding_r := padding_r d;
        padding_kind := padding_kind d |}).

Definition negotiating : MklDnn := {|
  mkldnn_engine_t := unit;
  mkldnn_memory_desc_t := memory_desc;
  mkldnn_pooling_desc_t := pooling_desc;
  mkldnn_primitive_desc_t := primitive_desc;
  mkldnn_primitive_t := primitive;
  mkldnn_tensor := tensor;
  prim := t_prim;
  md_format := format;
  lib_memory_desc_init := memory_desc_init;
  lib_pooling_forward_desc_init := fun pk ak s d st k pl pr pad =>
    (mkldnn_success,
     {| prop_kind := pk; alg_kind := ak; src_desc := s; dst_desc := d;
        strides := st; kernel := k; padding_l := pl; padding_r := pr;
        padding_kind := pad |});
  lib_pooling_backward_desc_init := fun ak s d st k pl pr pad =>
    (mkldnn_success,
     {| prop_kind := mkldnn_backward_data; alg_kind := ak; src_desc := s;
        dst_desc := d; strides := st; kernel := k; padding_l := pl;
        padding_r := pr; padding_kind := pad |});
  lib_primitive_desc_create := negotiated_desc_create;
  lib_primitive_desc_query_pd := query_pd;
  lib_primitive_desc_query_memory_d := query_memory_d;
  lib_primitive_create := primitive_create;
  util_create_mkldnn_tensor := tensor_of;
  util_create_mkldnn_tensor_from_md := tensor_from_md
|}.

(** The store of the scenario for the second engine, and the two builds
    of the scenario on it. *)
Definition negotiated_heap0 : gmap Z (mkldnn_opkernel (L := negotiating)) :=
  <[1 := {| op_desc := None; op_prim := None; inputs := ∅; outputs := ∅;
            num_inputs := 0; num_outputs := 0; reorder_i := ∅;
            reorder_o := ∅; net := ∅; net_size := 0 |}]>
    (<[2 := {| op_desc := None; op_prim := None; inputs := ∅;
               outputs := ∅; num_inputs := 0; num_outputs := 0;
               reorder_i := ∅; reorder_o := ∅; net := ∅;
               net_size := 0 |}]> ∅).

Abbreviation negotiated_fprop pool_type p :=
  (create_mkldnn_pool_fprop_kernel (L := negotiating) tt 4 4
     [8; 16; 32; 32] [2; 2] [8; 16; 16; 16] [2; 2] [0; 0] pool_type None
     mkldnn_f32 p).

Abbreviation negotiated_bprop pool_type fp p :=
  (create_mkldnn_pool_bprop_kernel (L := negotiating) tt 4 4
     [8; 16; 16; 16] [2; 2] [8; 16; 32; 32] [2; 2] [0; 0] pool_type None
     mkldnn_f32 fp p).

(** The same two builds given the very same arguments. *)
Abbreviation negotiated_same_fprop pool_type p :=
  (create_mkldnn_pool_fprop_kernel (L := negotiating) tt 4 4
     [8; 16; 32; 32] [1; 1] [8; 16; 32; 32] [1; 1] [0; 0] pool_type None
     mkldnn_f32 p).

Abbreviation negotiated_same_bprop pool_type fp p :=
  (create_mkldnn_pool_bprop_kernel (L := negotiating) tt 4 4
     [8; 16; 32; 32] [1; 1] [8; 16; 32; 32] [1; 1] [0; 0] pool_type None
     mkldnn_f32 fp p).

End Model.


(** * Reasoning about runs *)

Section Runs.

Context `{L : MklDnn}.

Lemma post_intro {A} (m : M A) h l r (Q : list call -> result A -> Prop) :
  post m h (fun l' r' => l' = l -> r' = r -> Q l r) -> m h = (l, r) -> Q l r.
Proof. unfold post. intros HQ E. rewrite E in HQ. by apply HQ. Qed.

Lemma post_result {A} (m : M A) h (r : result A) :
  post m h (fun _ r' => r' = r) -> exists l, m h = (l, r).
Proof.
  unfold post. destruct (m h) as [l r'] eqn:E. simpl. intros ->. eauto.
Qed.

Lemma post_ret {A} (a : A) h Q : Q [] (Ret a h) -> post (ret a) h Q.
Proof. done. Qed.

Lemma post_exit {A} h (Q : list call -> result A -> Prop) :
  Q [] (Exit h) -> post exit h Q.
Proof. done. Qed.

Lemma post_fault {A} h (Q : list call -> result A -> Prop) :
  Q [] Fault -> post fault h Q.
Proof. done. Qed.

Lemma post_log c h Q : Q [c] (Ret tt h) -> post (log c) h Q.
Proof. done. Qed.

Lemma post_bind {A B} (m : M A) (f : A -> M B) h Q :
  post m h (fun l r =>
    match r with
    | Ret a h1 => post (f a) h1 (fun l' r' => Q (l ++ l') r')
    | Exit h1 => Q l (Exit h1)
    | Fault => Q l Fault
    end) ->
  post (bind m f) h Q.
Proof.
  unfold post, bind. destruct (m h) as [l [a h1|h1|]]; simpl; [|done..].
  by destruct (f a h1).
Qed.

Lemma post_load p h Q :
  match h !! p with
  | Some k => Q [] (Ret k h)
  | None => Q [] Fault
  end ->
  post (load p) h Q.
Proof. unfold post, load. by destruct (h !! p). Qed.

Lemma post_store p f h Q :
  match h !! p with
  | Some k => Q [] (Ret tt (<[p := f k]> h))
  | None => Q [] Fault
  end ->
  post (store p f) h Q.
Proof. unfold post, store. by destruct (h !! p). Qed.

Lemma post_load_insert p k h Q :
  Q [] (Ret k (<[p := k]> h)) -> post (load p) (<[p := k]> h) Q.
Proof. intros HQ. apply post_load. by rewrite lookup_insert_eq. Qed.

Lemma post_store_insert p f k h Q :
  Q [] (Ret tt (<[p := f k]> h)) -> post (store p f) (<[p := k]> h) Q.
Proof.
  intros HQ. apply post_store.
  by rewrite lookup_insert_eq, insert_insert_eq.
Qed.

Lemma post_deref {A} (q : option A) h Q :
  match q with
  | Some a => Q [] (Ret a h)
  | None => Q [] Fault
  end ->
  post (deref q) h Q.
Proof. unfold post, deref. by destruct q. Qed.

Lemma returned_run (x : list call * result unit) h :
  returned x = Some h -> x = (x.1, Ret tt h).
Proof.
  destruct x as [l [[] h'| |]]; unfold returned; simpl; intros [=].
  by subst.
Qed.

Lemma nets_unchanged_refl h : nets_unchanged h h.
Proof. by intros q. Qed.

Lemma nets_unchanged_insert h p k k' :
  h !! p = Some k -> net k' = net k -> net_size k' = net_size k ->
  nets_unchanged h (<[p := k']> h).
Proof.
  intros Hk Hn Hs q. destruct (decide (p = q)) as [<-|Hne].
  - rewrite lookup_insert_eq, Hk. simpl. by rewrite Hn, Hs.
  - by rewrite lookup_insert_ne.
Qed.

End Runs.

#[global] Opaque post.

(** One step of a run: the rule of the construct at the head of the
    program, then the case distinction it asks for.  The answer of the
    library to a call that is tested gets a name. *)
Ltac run_lookup :=
  lazymatch goal with
  | |- match ?o with _ => _ end =>
      lazymatch o with
      | Some _ => idtac
      | _ => let E := fresh "Hk" in destruct o eqn:E
      end
  | |- _ => idtac
  end.

Ltac run_step :=
  lazymatch goal with
  | |- post (bind _ _) _ _ => apply post_bind
  | |- post (ret _) _ _ => apply post_ret
  | |- post exit _ _ => apply post_exit
  | |- post fault _ _ => apply post_fault
  | |- post (log _) _ _ => apply post_log
  | |- post (load _) _ _ =>
      first [ apply post_load_insert | apply post_load; run_lookup ]
  | |- post (store _ _) _ _ =>
      first [ apply post_store_insert | apply post_store; run_lookup ]
  | |- post (deref ?q) _ _ =>
      let q' := eval cbn [inputs outputs with_op_desc with_op_prim
        with_input with_output with_num_inputs with_num_outputs
        with_reorder_i with_reorder_o net_push] in q in
      change q with q';
      rewrite ?(lookup_insert_ne _ 1 0) by done;
      rewrite ?lookup_insert_eq;
      apply post_deref; run_lookup
  | |- post (if decide (?v.1 = ?s) then _ else _) _ _ =>
      let E := fresh "Hr" in
      let st := fresh "st" in
      let x := fresh "x" in
      destruct v as [st x] eqn:E; cbn [fst snd];
      let E' := fresh "Hd" in
      destruct (decide (st = s)) as [E'|E']; [subst st|]
  | |- post (if decide ?P then _ else _) _ _ =>
      let E := fresh "Hd" in destruct (decide P) as [E|E]
  | |- post (match ?x with _ => _ end) _ _ =>
      let E := fresh "Hm" in destruct x eqn:E
  end; cbv beta iota; cbn [fst snd op_desc with_op_desc with_op_prim
        with_input with_output with_num_inputs with_num_outputs
        with_reorder_i with_reorder_o net_push].

Ltac run :=
  unfold MKL_CHECK, mkldnn_memory_desc_init,
    mkldnn_pooling_forward_desc_init, mkldnn_pooling_backward_desc_init,
    mkldnn_primitive_desc_create, mkldnn_primitive_desc_query_pd,
    mkldnn_primitive_desc_query_memory_d, mkldnn_primitive_create,
    create_mkldnn_tensor, create_mkldnn_tensor_from_md;
  repeat run_step.

(** Start from a hypothesis [H : m h = (l, r)]. *)
Ltac run_from H :=
  lazymatch type of H with
  | ?m ?h = (?l, ?r) =>
      lazymatch goal with
      | |- ?G => revert H; apply (post_intro m h l r (fun _ _ => G))
      end
  end.

(** The goals left at the end of a run, for the three general facts. *)
Ltac call_shape :=
  econstructor; try done;
  repeat match goal with
         | H : lib_memory_desc_init _ _ _ _ = _ |- _ => rewrite H
         | H : _ = Some _ |- _ => rewrite H
         | H : _ = None |- _ => rewrite H
         end;
  try (case_decide; done); try done.

Ltac unname_answers :=
  repeat match goal with
         | H : ?f = (_, ?x) |- _ =>
             is_var x;
             let H' := fresh in
             assert (H' : x = f.2) by (by rewrite H);
             clear H; subst x
         end.

Ltac calls_leaf :=
  intros <- _; cbn [app]; unname_answers;
  repeat (apply List.Forall_cons; [call_shape|]); apply List.Forall_nil.

Ltac stops_leaf :=
  intros <- <-; cbn [app]; split; [|split];
  [ cbn [removelast];
    repeat (apply List.Forall_cons; [cbn; congruence|]);
    apply List.Forall_nil
  | intros ? [= <-];
    (split;
     [ eexists; (split; [reflexivity|cbn; congruence])
     | first [ apply nets_unchanged_refl
             | eapply nets_unchanged_insert; [eassumption|done..] ] ])
  | intros ? [= <-]; cbn; first [ done | congruence | by eauto ] ].

Ltac in_log :=
  cbn [app];
  solve [ repeat first [ apply list_elem_of_here
                       | apply list_elem_of_further ] ].

Ltac eexists_lookup :=
  lazymatch goal with
  | |- exists fk, _ = Some fk /\ _ => eexists; split; [reflexivity|]
  end.

Ltac answers_leaf :=
  rewrite ?decide_True by done; rewrite ?decide_False by done;
  repeat first
    [ reflexivity
    | eassumption
    | split
    | eexists ].

Ltac returns_leaf A :=
  intros <- [= <-];
  try eexists_lookup;
  do 10 eexists;
  split; [first [eassumption|reflexivity]|];
  split; [unfold A; answers_leaf|];
  rewrite ?decide_True by done; rewrite ?decide_False by done;
  split; [in_log|];
  split; [in_log|];
  split; [in_log|];
  split; [try (intros; in_log); try done|];
  reflexivity.

Ltac runs_leaf :=
  cbn [fmap list_fmap fst mkldnn_primitive_at] in *;
  repeat match goal with
         | H : _ /\ _ |- _ => destruct H
         | H : exists _, _ |- _ => destruct H
         | H : context [decide ?P] |- _ =>
             first [ rewrite (decide_True (P := P)) in H by done
                   | rewrite (decide_False (P := P)) in H by done ]
         end;
  simplify_eq; try congruence;
  repeat match goal with
         | H1 : ?f = _, H2 : ?f = _ |- _ =>
             rewrite H1 in H2; simplify_eq
         end;
  try congruence; try reflexivity.

Section Builders.

Context `{L : MklDnn}.

Variables (engine : mkldnn_engine_t) (src_dims dst_dims : Z)
  (src_sizes kernel_sizes dst_sizes strides padding : list Z)
  (pool_type : Z) (input_src_md : option mkldnn_memory_desc_t)
  (data_type : mkldnn_data_type_t).

#[local] Abbreviation fprop :=
  (create_mkldnn_pool_fprop_kernel engine src_dims dst_dims src_sizes
     kernel_sizes dst_sizes strides padding pool_type input_src_md
     data_type).
#[local] Abbreviation bprop :=
  (create_mkldnn_pool_bprop_kernel engine src_dims dst_dims src_sizes
     kernel_sizes dst_sizes strides padding pool_type input_src_md
     data_type).

(** Every call of a forward run has one of the shapes of [fprop_call]. *)
Lemma fprop_calls opkernel h l r :
  fprop opkernel h = (l, r) ->
  Forall (fprop_call engine src_dims dst_dims src_sizes kernel_sizes
            dst_sizes strides padding pool_type input_src_md data_type) l.
Proof.
  intros H. run_from H. unfold create_mkldnn_pool_fprop_kernel.
  run. all: calls_leaf.
Qed.

(** Every call of a backward run has one of the shapes of [bprop_call],
    for the forward kernel found in the store at the start. *)
Lemma bprop_calls fprop_opkernel opkernel h l r :
  bprop fprop_opkernel opkernel h = (l, r) ->
  Forall (bprop_call engine src_dims dst_dims src_sizes kernel_sizes
            dst_sizes strides padding pool_type input_src_md data_type
            (h !! fprop_opkernel)) l.
Proof.
  intros H. run_from H. unfold create_mkldnn_pool_bprop_kernel.
  run. all: calls_leaf.
Qed.

(** A call that fails is the last call of the run, the run then ends in
    [Exit], and a run that ends in [Exit] has not touched any net. *)
Lemma fprop_stops opkernel h l r :
  fprop opkernel h = (l, r) ->
  Forall (fun c => ~ failed c) (removelast l) /\
  (forall h', r = Exit h' ->
     (exists c, last l = Some c /\ failed c) /\ nets_unchanged h h') /\
  (forall c, last l = Some c -> failed c -> exists h', r = Exit h').
Proof.
  intros H. run_from H. unfold create_mkldnn_pool_fprop_kernel.
  run. all: stops_leaf.
Qed.

Lemma bprop_stops fprop_opkernel opkernel h l r :
  bprop fprop_opkernel opkernel h = (l, r) ->
  Forall (fun c => ~ failed c) (removelast l) /\
  (forall h', r = Exit h' ->
     (exists c, last l = Some c /\ failed c) /\ nets_unchanged h h') /\
  (forall c, last l = Some c -> failed c -> exists h', r = Exit h').
Proof.
  intros H. run_from H. unfold create_mkldnn_pool_bprop_kernel.
  run. all: stops_leaf.
Qed.

(** A forward run that returns: the record it leaves in the store, the
    answers of the library it rests on, and calls found in its log. *)
Lemma fprop_returns opkernel h l h' :
  fprop opkernel h = (l, Ret tt h') ->
  exists k src_md dst_md op pd t_in md_out t_out ws p,
    h !! opkernel = Some k /\
    fprop_answers engine src_dims dst_dims src_sizes kernel_sizes dst_sizes
      strides padding pool_type input_src_md data_type
      src_md dst_md op pd t_in md_out t_out ws p /\
    Call_memory_desc_init dst_dims dst_sizes data_type mkldnn_any
      mkldnn_success ∈ l /\
    Call_pooling_forward_desc_init mkldnn_forward_training
      (if decide (pool_type = 0) then mkldnn_pooling_max
       else mkldnn_pooling_avg)
      src_md dst_md strides kernel_sizes padding padding
      mkldnn_padding_zero mkldnn_success ∈ l /\
    Call_primitive_desc_create op engine None mkldnn_success ∈ l /\
    (input_src_md = None ->
     Call_memory_desc_init src_dims src_sizes data_type mkldnn_chwn
       mkldnn_success ∈ l) /\
    h' = <[opkernel := fprop_record k pd t_in t_out ws p]> h.
Proof.
  intros H. run_from H. unfold create_mkldnn_pool_fprop_kernel.
  run. all: try (intros; discriminate).
  all: returns_leaf @fprop_answers.
Qed.

(** A backward run that returns. *)
Lemma bprop_returns fprop_opkernel opkernel h l h' :
  bprop fprop_opkernel opkernel h = (l, Ret tt h') ->
  exists fk, h !! fprop_opkernel = Some fk /\
  exists k src_md dst_md op pd t_in md_out t_out ws p,
    h !! opkernel = Some k /\
    bprop_answers engine src_dims dst_dims src_sizes kernel_sizes dst_sizes
      strides padding pool_type input_src_md data_type (op_desc fk)
      src_md dst_md op pd t_in md_out t_out ws p /\
    Call_memory_desc_init dst_dims dst_sizes data_type mkldnn_any
      mkldnn_success ∈ l /\
    Call_pooling_backward_desc_init
      (if decide (pool_type = 0) then mkldnn_pooling_max
       else mkldnn_pooling_avg)
      dst_md src_md strides kernel_sizes padding padding
      mkldnn_padding_zero mkldnn_success ∈ l /\
    Call_primitive_desc_create op engine (op_desc fk) mkldnn_success ∈ l /\
    (input_src_md = None ->
     Call_memory_desc_init src_dims src_sizes data_type mkldnn_chwn
       mkldnn_success ∈ l) /\
    h' = <[opkernel := bprop_record k pd t_in t_out ws p]> h.
Proof.
  intros H. run_from H. unfold create_mkldnn_pool_bprop_kernel.
  run. all: try (intros; discriminate).
  all: returns_leaf @bprop_answers.
Qed.

(** Conversely, a forward run returns whenever the record is in the store
    and the library gives its answers; likewise a backward run. *)
Lemma fprop_runs opkernel h k src_md dst_md op pd t_in md_out t_out ws p :
  h !! opkernel = Some k ->
  fprop_answers engine src_dims dst_dims src_sizes kernel_sizes dst_sizes
    strides padding pool_type input_src_md data_type
    src_md dst_md op pd t_in md_out t_out ws p ->
  exists l,
    fprop opkernel h =
    (l, Ret tt (<[opkernel := fprop_record k pd t_in t_out ws p]> h)).
Proof.
  intros Hk (Hsrc & Hdst & Hop & Hpd & Hq & Ht & Hws & Hp).
  apply post_result. unfold create_mkldnn_pool_fprop_kernel.
  run; runs_leaf.
Qed.

Lemma bprop_runs fprop_opkernel opkernel h fk k src_md dst_md op pd t_in
    md_out t_out ws p :
  h !! fprop_opkernel = Some fk ->
  h !! opkernel = Some k ->
  bprop_answers engine src_dims dst_dims src_sizes kernel_sizes dst_sizes
    strides padding pool_type input_src_md data_type (op_desc fk)
    src_md dst_md op pd t_in md_out t_out ws p ->
  exists l,
    bprop fprop_opkernel opkernel h =
    (l, Ret tt (<[opkernel := bprop_record k pd t_in t_out ws p]> h)).
Proof.
  intros Hfk Hk (Hsrc & Hdst & Hop & Hpd & Hq & Ht & Hws & Hp).
  apply post_result. unfold create_mkldnn_pool_bprop_kernel.
  run; runs_leaf.
Qed.

(** ** Input and output counts *)

(** C1.  A forward kernel that was built has one input, the source
    tensor in slot 0.  For max pooling ([pool_type = 0]) it has two
    outputs: the destination tensor in slot 0 and, in slot 1, the tensor
    made from the workspace descriptor of the primitive descriptor.  For
    average pooling (any other [pool_type], 1 in particular) it has one
    output, the destination tensor. *)
Theorem fprop_inputs_outputs opkernel h l h' :
  create_mkldnn_pool_fprop_kernel engine src_dims dst_dims
    src_sizes kernel_sizes dst_sizes strides padding pool_type
    input_src_md data_type opkernel h = (l, Ret tt h') ->
  exists k' t_in md_out t_out,
    h' !! opkernel = Some k' /\
    num_inputs k' = 1 /\
    inputs k' !! 0 = Some t_in /\
    lib_primitive_desc_query_memory_d
      (lib_primitive_desc_query_pd (op_desc k') mkldnn_query_dst_pd 0)
      = Some md_out /\
    util_create_mkldnn_tensor_from_md dst_dims dst_sizes md_out engine
      = Some t_out /\
    outputs k' !! 0 = Some t_out /\
    (pool_type = 0 ->
       num_outputs k' = 2 /\
       exists md_ws t_ws,
         lib_primitive_desc_query_memory_d
           (lib_primitive_desc_query_pd (op_desc k')
              mkldnn_query_workspace_pd 0) = Some md_ws /\
         util_create_mkldnn_tensor_from_md dst_dims dst_sizes md_ws engine
           = Some t_ws /\
         outputs k' !! 1 = Some t_ws) /\
    (pool_type <> 0 -> num_outputs k' = 1).
Proof.
  intros H. apply fprop_returns in H
    as (k & src_md & dst_md & op & pd & t_in & md_out & t_out & ws & p &
        Hk & Ha & _ & _ & _ & _ & ->).
  destruct Ha as (_ & _ & _ & _ & Hq & Ht & Hws & _).
  exists (fprop_record k pd t_in t_out ws p), t_in, md_out, t_out.
  rewrite lookup_insert_eq. split_and!; try done; simpl.
  - apply lookup_insert_eq.
  - destruct ws; [rewrite lookup_insert_ne by done|]; apply lookup_insert_eq.
  - intros Hp. rewrite decide_True in Hws by done.
    destruct Hws as (md_ws & t_ws & Hqw & Htw & ->).
    split; [done|]. exists md_ws, t_ws. split_and!; try done.
    apply lookup_insert_eq.
  - intros Hp. rewrite decide_False in Hws by done. by subst ws.
Qed.

(** C2.  A backward kernel that was built has one output, the tensor of
    the outgoing gradient in slot 0.  For max pooling it has two inputs:
    the tensor of the incoming gradient in slot 0 and, in slot 1, the
    tensor made from the workspace descriptor.  For average pooling it has
    one input. *)
Theorem bprop_inputs_outputs fprop_opkernel opkernel h l h' :
  create_mkldnn_pool_bprop_kernel engine src_dims dst_dims
    src_sizes kernel_sizes dst_sizes strides padding pool_type
    input_src_md data_type fprop_opkernel opkernel h = (l, Ret tt h') ->
  exists k' t_in md_out t_out,
    h' !! opkernel = Some k' /\
    num_outputs k' = 1 /\
    inputs k' !! 0 = Some t_in /\
    lib_primitive_desc_query_memory_d
      (lib_primitive_desc_query_pd (op_desc k') mkldnn_query_diff_src_pd 0)
      = Some md_out /\
    util_create_mkldnn_tensor_from_md dst_dims dst_sizes md_out engine
      = Some t_out /\
    outputs k' !! 0 = Some t_out /\
    (pool_type = 0 ->
       num_inputs k' = 2 /\
       exists md_ws t_ws,
         lib_primitive_desc_query_memory_d
           (lib_primitive_desc_query_pd (op_desc k')
              mkldnn_query_workspace_pd 0) = Some md_ws /\
         util_create_mkldnn_tensor_from_md src_dims src_sizes md_ws engine
           = Some t_ws /\
         inputs k' !! 1 = Some t_ws) /\
    (pool_type <> 0 -> num_inputs k' = 1).
Proof.
  intros H. apply bprop_returns in H
    as (fk & Hfk & k & src_md & dst_md & op & pd & t_in & md_out & t_out &
        ws & p & Hk & Ha & _ & _ & _ & _ & ->).
  destruct Ha as (_ & _ & _ & _ & Hq & Ht & Hws & _).
  exists (bprop_record k pd t_in t_out ws p), t_in, md_out, t_out.
  rewrite lookup_insert_eq. split_and!; try done; simpl.
  - destruct ws; [rewrite lookup_insert_ne by done|]; apply lookup_insert_eq.
  - apply lookup_insert_eq.
  - intros Hp. rewrite decide_True in Hws by done.
    destruct Hws as (md_ws & t_ws & Hqw & Htw & ->).
    split; [done|]. exists md_ws, t_ws. split_and!; try done.
    apply lookup_insert_eq.
  - intros Hp. rewrite decide_False in Hws by done. by subst ws.
Qed.

(** ** What is passed to the library *)

(** C4.  In a forward run every primitive descriptor is created without a
    hint; in a backward run every primitive descriptor is created with the
    [op_desc] of the forward kernel as the hint.  A builder that returns
    has made that call, and it succeeded. *)
Theorem primitive_desc_hint :
  (forall opkernel h l r,
     create_mkldnn_pool_fprop_kernel engine src_dims dst_dims
       src_sizes kernel_sizes dst_sizes strides padding pool_type
       input_src_md data_type opkernel h = (l, r) ->
     forall op e hint st,
       Call_primitive_desc_create op e hint st ∈ l -> hint = None) /\
  (forall fprop_opkernel opkernel h l r,
     create_mkldnn_pool_bprop_kernel engine src_dims dst_dims
       src_sizes kernel_sizes dst_sizes strides padding pool_type
       input_src_md data_type fprop_opkernel opkernel h = (l, r) ->
     forall op e hint st,
       Call_primitive_desc_create op e hint st ∈ l ->
       exists fk, h !! fprop_opkernel = Some fk /\ hint = op_desc fk) /\
  (forall opkernel h l h',
     create_mkldnn_pool_fprop_kernel engine src_dims dst_dims
       src_sizes kernel_sizes dst_sizes strides padding pool_type
       input_src_md data_type opkernel h = (l, Ret tt h') ->
     exists op, Call_primitive_desc_create op engine None mkldnn_success ∈ l) /\
  (forall fprop_opkernel opkernel h l h',
     create_mkldnn_pool_bprop_kernel engine src_dims dst_dims
       src_sizes kernel_sizes dst_sizes strides padding pool_type
       input_src_md data_type fprop_opkernel opkernel h = (l, Ret tt h') ->
     exists fk op,
       h !! fprop_opkernel = Some fk /\
       Call_primitive_desc_create op engine (op_desc fk) mkldnn_success ∈ l).
Proof.
  split_and!.
  - intros opkernel h l r H op e hint st Hin.
    apply fprop_calls in H. rewrite Forall_forall in H.
    apply H in Hin. by inversion Hin.
  - intros fo opkernel h l r H op e hint st Hin.
    apply bprop_calls in H. rewrite Forall_forall in H.
    apply H in Hin. inversion Hin; subst. eauto.
  - intros opkernel h l h' H. apply fprop_returns in H
      as (k & src_md & dst_md & op & pd & t_in & md_out & t_out & ws & p &
          _ & _ & _ & _ & Hin & _).
    eauto.
  - intros fo opkernel h l h' H. apply bprop_returns in H
      as (fk & Hfk & k & src_md & dst_md & op & pd & t_in & md_out & t_out &
          ws & p & _ & _ & _ & _ & Hin & _).
    eauto.
Qed.

(** C6.  The source descriptor handed to the pooling descriptor is the
    caller's descriptor when there is one, and otherwise the one
    [mkldnn_memory_desc_init] makes from [src_dims], [src_sizes] and
    [data_type] with the layout [mkldnn_chwn]; the destination descriptor
    is always the one made from [dst_dims], [dst_sizes] and [data_type]
    with the layout [mkldnn_any].  The forward builder passes them as
    source and destination, the backward builder as gradient of the
    destination and gradient of the source.  No other memory descriptor
    is initialised, and none for the source when the caller gave one. *)
Theorem source_and_destination_descriptors :
  (forall opkernel h l r,
     create_mkldnn_pool_fprop_kernel engine src_dims dst_dims
       src_sizes kernel_sizes dst_sizes strides padding pool_type
       input_src_md data_type opkernel h = (l, r) ->
     (forall pk ak s d st k pl pr pad status,
        Call_pooling_forward_desc_init pk ak s d st k pl pr pad status ∈ l ->
        s = match input_src_md with
            | Some md => md
            | None => (lib_memory_desc_init src_dims src_sizes data_type
                         mkldnn_chwn).2
            end /\
        d = (lib_memory_desc_init dst_dims dst_sizes data_type
               mkldnn_any).2) /\
     (forall n ds dt f status,
        Call_memory_desc_init n ds dt f status ∈ l ->
        dt = data_type /\
        (f = mkldnn_chwn /\ n = src_dims /\ ds = src_sizes /\
         input_src_md = None \/
         f = mkldnn_any /\ n = dst_dims /\ ds = dst_sizes))) /\
  (forall fprop_opkernel opkernel h l r,
     create_mkldnn_pool_bprop_kernel engine src_dims dst_dims
       src_sizes kernel_sizes dst_sizes strides padding pool_type
       input_src_md data_type fprop_opkernel opkernel h = (l, r) ->
     (forall ak ds dd st k pl pr pad status,
        Call_pooling_backward_desc_init ak ds dd st k pl pr pad status ∈ l ->
        dd = match input_src_md with
             | Some md => md
             | None => (lib_memory_desc_init src_dims src_sizes data_type
                          mkldnn_chwn).2
             end /\
        ds = (lib_memory_desc_init dst_dims dst_sizes data_type
                mkldnn_any).2) /\
     (forall n ds dt f status,
        Call_memory_desc_init n ds dt f status ∈ l ->
        dt = data_type /\
        (f = mkldnn_chwn /\ n = src_dims /\ ds = src_sizes /\
         input_src_md = None \/
         f = mkldnn_any /\ n = dst_dims /\ ds = dst_sizes))) /\
  (forall opkernel h l h',
     create_mkldnn_pool_fprop_kernel engine src_dims dst_dims
       src_sizes kernel_sizes dst_sizes strides padding pool_type
       input_src_md data_type opkernel h = (l, Ret tt h') ->
     exists ak s d status,
       Call_pooling_forward_desc_init mkldnn_forward_training ak s d strides
         kernel_sizes padding padding mkldnn_padding_zero status ∈ l) /\
  (forall fprop_opkernel opkernel h l h',
     create_mkldnn_pool_bprop_kernel engine src_dims dst_dims
       src_sizes kernel_sizes dst_sizes strides padding pool_type
       input_src_md data_type fprop_opkernel opkernel h = (l, Ret tt h') ->
     exists ak ds dd status,
       Call_pooling_backward_desc_init ak ds dd strides kernel_sizes padding
         padding mkldnn_padding_zero status ∈ l).
Proof.
  split_and!.
  - intros opkernel h l r H. apply fprop_calls in H.
    rewrite Forall_forall in H.
    split; intros; match goal with Hin : _ ∈ l |- _ => apply H in Hin;
      inversion Hin; subst; auto 10 end.
  - intros fo opkernel h l r H. apply bprop_calls in H.
    rewrite Forall_forall in H.
    split; intros; match goal with Hin : _ ∈ l |- _ => apply H in Hin;
      inversion Hin; subst; auto 10 end.
  - intros opkernel h l h' H. apply fprop_returns in H
      as (k & src_md & dst_md & op & pd & t_in & md_out & t_out & ws & p &
          _ & _ & _ & Hin & _).
    eauto.
  - intros fo opkernel h l h' H. apply bprop_returns in H
      as (fk & Hfk & k & src_md & dst_md & op & pd & t_in & md_out & t_out &
          ws & p & _ & _ & _ & Hin & _).
    eauto.
Qed.

(** C7.  Whatever the pooling type, the forward pooling descriptor is
    initialised for [mkldnn_forward_training] and with
    [mkldnn_padding_zero]; a forward builder that returns has initialised
    it, for max pooling when [pool_type = 0] and for average pooling
    otherwise. *)
Theorem forward_training_zero_padding :
  (forall opkernel h l r,
     create_mkldnn_pool_fprop_kernel engine src_dims dst_dims
       src_sizes kernel_sizes dst_sizes strides padding pool_type
       input_src_md data_type opkernel h = (l, r) ->
     forall pk ak s d st k pl pr pad status,
       Call_pooling_forward_desc_init pk ak s d st k pl pr pad status ∈ l ->
       pk = mkldnn_forward_training /\ pad = mkldnn_padding_zero) /\
  (forall opkernel h l h',
     create_mkldnn_pool_fprop_kernel engine src_dims dst_dims
       src_sizes kernel_sizes dst_sizes strides padding pool_type
       input_src_md data_type opkernel h = (l, Ret tt h') ->
     exists s d,
       Call_pooling_forward_desc_init mkldnn_forward_training
         (if decide (pool_type = 0) then mkldnn_pooling_max
          else mkldnn_pooling_avg)
         s d strides kernel_sizes padding padding mkldnn_padding_zero
         mkldnn_success ∈ l).
Proof.
  split.
  - intros opkernel h l r H pk ak s d st k pl pr pad status Hin.
    apply fprop_calls in H. rewrite Forall_forall in H.
    apply H in Hin. by inversion Hin.
  - intros opkernel h l h' H. apply fprop_returns in H
      as (k & src_md & dst_md & op & pd & t_in & md_out & t_out & ws & p &
          _ & _ & _ & Hin & _).
    eauto.
Qed.

(** C10.  Both builders pass the one [padding] array as the leading and
    as the trailing padding of the pooling descriptor, so the two are
    equal. *)
Theorem padding_is_symmetric :
  (forall opkernel h l r,
     create_mkldnn_pool_fprop_kernel engine src_dims dst_dims
       src_sizes kernel_sizes dst_sizes strides padding pool_type
       input_src_md data_type opkernel h = (l, r) ->
     forall pk ak s d st k pl pr pad status,
       Call_pooling_forward_desc_init pk ak s d st k pl pr pad status ∈ l ->
       pl = padding /\ pr = padding) /\
  (forall fprop_opkernel opkernel h l r,
     create_mkldnn_pool_bprop_kernel engine src_dims dst_dims
       src_sizes kernel_sizes dst_sizes strides padding pool_type
       input_src_md data_type fprop_opkernel opkernel h = (l, r) ->
     forall ak ds dd st k pl pr pad status,
       Call_pooling_backward_desc_init ak ds dd st k pl pr pad status ∈ l ->
       pl = padding /\ pr = padding).
Proof.
  split.
  - intros opkernel h l r H pk ak s d st k pl pr pad status Hin.
    apply fprop_calls in H. rewrite Forall_forall in H.
    apply H in Hin. by inversion Hin.
  - intros fo opkernel h l r H ak ds dd st k pl pr pad status Hin.
    apply bprop_calls in H. rewrite Forall_forall in H.
    apply H in Hin. by inversion Hin.
Qed.

(** C9.  A [pool_type] other than 0 makes both builders behave exactly as
    [pool_type = 1] does: same calls, same result, same store.  The
    pooling descriptor is initialised for max pooling only when
    [pool_type = 0], and only then is the workspace queried. *)
Theorem nonzero_pool_type_is_average :
  (pool_type <> 0 ->
   forall opkernel h,
     create_mkldnn_pool_fprop_kernel engine src_dims dst_dims
       src_sizes kernel_sizes dst_sizes strides padding pool_type
       input_src_md data_type opkernel h =
     create_mkldnn_pool_fprop_kernel engine src_dims dst_dims src_sizes
       kernel_sizes dst_sizes strides padding 1 input_src_md data_type
       opkernel h) /\
  (pool_type <> 0 ->
   forall fprop_opkernel opkernel h,
     create_mkldnn_pool_bprop_kernel engine src_dims dst_dims
       src_sizes kernel_sizes dst_sizes strides padding pool_type
       input_src_md data_type fprop_opkernel opkernel h =
     create_mkldnn_pool_bprop_kernel engine src_dims dst_dims src_sizes
       kernel_sizes dst_sizes strides padding 1 input_src_md data_type
       fprop_opkernel opkernel h) /\
  (forall opkernel h l r,
     create_mkldnn_pool_fprop_kernel engine src_dims dst_dims
       src_sizes kernel_sizes dst_sizes strides padding pool_type
       input_src_md data_type opkernel h = (l, r) ->
     (forall pk ak s d st k pl pr pad status,
        Call_pooling_forward_desc_init pk ak s d st k pl pr pad status ∈ l ->
        (pool_type = 0 -> ak = mkldnn_pooling_max) /\
        (pool_type <> 0 -> ak = mkldnn_pooling_avg)) /\
     (forall pd i,
        Call_primitive_desc_query_pd pd mkldnn_query_workspace_pd i ∈ l ->
        pool_type = 0)) /\
  (forall fprop_opkernel opkernel h l r,
     create_mkldnn_pool_bprop_kernel engine src_dims dst_dims
       src_sizes kernel_sizes dst_sizes strides padding pool_type
       input_src_md data_type fprop_opkernel opkernel h = (l, r) ->
     (forall ak ds dd st k pl pr pad status,
        Call_pooling_backward_desc_init ak ds dd st k pl pr pad status ∈ l ->
        (pool_type = 0 -> ak = mkldnn_pooling_max) /\
        (pool_type <> 0 -> ak = mkldnn_pooling_avg)) /\
     (forall pd i,
        Call_primitive_desc_query_pd pd mkldnn_query_workspace_pd i ∈ l ->
        pool_type = 0)).
Proof.
  split_and!.
  - intros Hp opkernel h. unfold create_mkldnn_pool_fprop_kernel.
    destruct (decide (pool_type = 0)) as [E|_]; [exfalso; exact (Hp E)|].
    destruct (decide (1 = 0)) as [E|_]; [discriminate E|].
    reflexivity.
  - intros Hp fo opkernel h. unfold create_mkldnn_pool_bprop_kernel.
    destruct (decide (pool_type = 0)) as [E|_]; [exfalso; exact (Hp E)|].
    destruct (decide (1 = 0)) as [E|_]; [discriminate E|].
    reflexivity.
  - intros opkernel h l r H. apply fprop_calls in H.
    rewrite Forall_forall in H.
    split; intros; match goal with Hin : _ ∈ l |- _ => apply H in Hin;
      inversion Hin; subst end; [|by auto].
    by split; intros; case_decide.
  - intros fo opkernel h l r H. apply bprop_calls in H.
    rewrite Forall_forall in H.
    split; intros; match goal with Hin : _ ∈ l |- _ => apply H in Hin;
      inversion Hin; subst end; [|by auto].
    by split; intros; case_decide.
Qed.

(** ** Failure *)

Lemma failed_call_is_last (h : gmap Z mkldnn_opkernel) l (r : result unit) :
  Forall (fun c => ~ failed c) (removelast l) ->
  (forall h', r = Exit h' ->
     (exists c, last l = Some c /\ failed c) /\ nets_unchanged h h') ->
  (forall c, last l = Some c -> failed c -> exists h', r = Exit h') ->
  forall l1 c l2,
    l = l1 ++ c :: l2 -> failed c ->
    l2 = [] /\ exists h', r = Exit h' /\ nets_unchanged h h'.
Proof.
  intros Hall Hexit Hlast l1 c l2 -> Hc. destruct l2 as [|c' l2].
  - split; [done|]. destruct (Hlast c) as [h' ->]; [apply last_snoc|done|].
    exists h'. split; [done|]. by apply Hexit.
  - exfalso. rewrite removelast_app in Hall by done.
    apply Forall_app in Hall as [_ Hall]. cbn in Hall.
    by inversion Hall.
Qed.

(** C8.  In either builder, a call that fails (a checked library call
    whose status is not [mkldnn_success], or a tensor helper that does not
    come back) is the last call of the run: the run ends there in [Exit],
    no kernel is returned, and the net and net size of every kernel in the
    store are what they were at the start. *)
Theorem failure_is_fatal :
  (forall opkernel h l r,
     create_mkldnn_pool_fprop_kernel engine src_dims dst_dims
       src_sizes kernel_sizes dst_sizes strides padding pool_type
       input_src_md data_type opkernel h = (l, r) ->
     forall l1 c l2,
       l = l1 ++ c :: l2 -> failed c ->
       l2 = [] /\ exists h', r = Exit h' /\ nets_unchanged h h') /\
  (forall fprop_opkernel opkernel h l r,
     create_mkldnn_pool_bprop_kernel engine src_dims dst_dims
       src_sizes kernel_sizes dst_sizes strides padding pool_type
       input_src_md data_type fprop_opkernel opkernel h = (l, r) ->
     forall l1 c l2,
       l = l1 ++ c :: l2 -> failed c ->
       l2 = [] /\ exists h', r = Exit h' /\ nets_unchanged h h').
Proof.
  split.
  - intros opkernel h l r H. apply fprop_stops in H as (H1 & H2 & H3).
    by apply failed_call_is_last.
  - intros fo opkernel h l r H. apply bprop_stops in H as (H1 & H2 & H3).
    by apply failed_call_is_last.
Qed.

(** ** The net *)

Lemma net_entries_push (k k' : mkldnn_opkernel) v :
  0 <= net_size k ->
  net k' = <[net_size k := v]> (net k) ->
  net_size k' = net_size k + 1 ->
  net_entries k' = net_entries k ++ [Some v].
Proof.
  intros Hs Hn Hs'. unfold net_entries. rewrite Hs', Hn.
  rewrite seqZ_app by lia. rewrite fmap_app. f_equal.
  - apply list_fmap_ext. intros i x Hx.
    apply list_elem_of_lookup_2, elem_of_seqZ in Hx.
    rewrite lookup_insert_ne by lia. done.
  - rewrite seqZ_cons, seqZ_nil by lia. simpl.
    by rewrite Z.add_0_l, lookup_insert_eq.
Qed.

(** C5, as the code has it.  The net is a member of the kernel record.
    A builder that returns has changed the record it was given and no
    other: it stored its primitive in slot [net_size] of that record's
    net, left every other slot alone and added one to [net_size]; for a
    size that is not negative the net has gained exactly that one entry
    at its end.  Built into two different records, the forward and the
    backward kernel each have one new entry in their own net; only if
    both builders are given the same record does that record's net gain
    two entries, the forward primitive first. *)
Theorem net_gains_one_entry :
  (forall opkernel h l h',
     create_mkldnn_pool_fprop_kernel engine src_dims dst_dims
       src_sizes kernel_sizes dst_sizes strides padding pool_type
       input_src_md data_type opkernel h = (l, Ret tt h') ->
     exists k k' p,
       h !! opkernel = Some k /\ h' = <[opkernel := k']> h /\
       op_prim k' = Some p /\
       net k' = <[net_size k := Some p]> (net k) /\
       net_size k' = net_size k + 1 /\
       (0 <= net_size k ->
        net_entries k' = net_entries k ++ [Some (Some p)])) /\
  (forall fprop_opkernel opkernel h l h',
     create_mkldnn_pool_bprop_kernel engine src_dims dst_dims
       src_sizes kernel_sizes dst_sizes strides padding pool_type
       input_src_md data_type fprop_opkernel opkernel h = (l, Ret tt h') ->
     exists k k' p,
       h !! opkernel = Some k /\ h' = <[opkernel := k']> h /\
       op_prim k' = Some p /\
       net k' = <[net_size k := Some p]> (net k) /\
       net_size k' = net_size k + 1 /\
       (0 <= net_size k ->
        net_entries k' = net_entries k ++ [Some (Some p)])) /\
  (forall pf pb h l1 h1 l2 h2,
     pf <> pb ->
     create_mkldnn_pool_fprop_kernel engine src_dims dst_dims
       src_sizes kernel_sizes dst_sizes strides padding pool_type
       input_src_md data_type pf h = (l1, Ret tt h1) ->
     create_mkldnn_pool_bprop_kernel engine src_dims dst_dims
       src_sizes kernel_sizes dst_sizes strides padding pool_type
       input_src_md data_type pf pb h1 = (l2, Ret tt h2) ->
     exists kf kb kf' kb' p1 p2,
       h !! pf = Some kf /\ h !! pb = Some kb /\
       h2 !! pf = Some kf' /\ h2 !! pb = Some kb' /\
       op_prim kf' = Some p1 /\ op_prim kb' = Some p2 /\
       (0 <= net_size kf ->
        net_entries kf' = net_entries kf ++ [Some (Some p1)]) /\
       (0 <= net_size kb ->
        net_entries kb' = net_entries kb ++ [Some (Some p2)])) /\
  (forall p h l1 h1 l2 h2,
     create_mkldnn_pool_fprop_kernel engine src_dims dst_dims
       src_sizes kernel_sizes dst_sizes strides padding pool_type
       input_src_md data_type p h = (l1, Ret tt h1) ->
     create_mkldnn_pool_bprop_kernel engine src_dims dst_dims
       src_sizes kernel_sizes dst_sizes strides padding pool_type
       input_src_md data_type p p h1 = (l2, Ret tt h2) ->
     exists k k1 k2 p1 p2,
       h !! p = Some k /\ h1 !! p = Some k1 /\ h2 !! p = Some k2 /\
       op_prim k1 = Some p1 /\ op_prim k2 = Some p2 /\
       (0 <= net_size k ->
        net_entries k2 = net_entries k ++ [Some (Some p1); Some (Some p2)])).
Proof.
  assert (Hf : forall opkernel h l h',
     fprop opkernel h = (l, Ret tt h') ->
     exists k k' p,
       h !! opkernel = Some k /\ h' = <[opkernel := k']> h /\
       op_prim k' = Some p /\
       net k' = <[net_size k := Some p]> (net k) /\
       net_size k' = net_size k + 1 /\
       (0 <= net_size k ->
        net_entries k' = net_entries k ++ [Some (Some p)])).
  { intros opkernel h l h' H. apply fprop_returns in H
      as (k & src_md & dst_md & op & pd & t_in & md_out & t_out & ws & p &
          Hk & _ & _ & _ & _ & _ & ->).
    exists k, (fprop_record k pd t_in t_out ws p), p.
    split_and!; try done. intros Hs. by apply net_entries_push. }
  assert (Hb : forall fprop_opkernel opkernel h l h',
     bprop fprop_opkernel opkernel h = (l, Ret tt h') ->
     exists k k' p,
       h !! opkernel = Some k /\ h' = <[opkernel := k']> h /\
       op_prim k' = Some p /\
       net k' = <[net_size k := Some p]> (net k) /\
       net_size k' = net_size k + 1 /\
       (0 <= net_size k ->
        net_entries k' = net_entries k ++ [Some (Some p)])).
  { intros fo opkernel h l h' H. apply bprop_returns in H
      as (fk & _ & k & src_md & dst_md & op & pd & t_in & md_out & t_out &
          ws & p & Hk & _ & _ & _ & _ & _ & ->).
    exists k, (bprop_record k pd t_in t_out ws p), p.
    split_and!; try done. intros Hs. by apply net_entries_push. }
  split_and!; [exact Hf|exact Hb|..].
  - intros pf pb h l1 h1 l2 h2 Hne H1 H2.
    apply Hf in H1 as (kf & kf' & p1 & Hkf & -> & Hp1 & _ & _ & He1).
    apply Hb in H2 as (kb & kb' & p2 & Hkb & -> & Hp2 & _ & _ & He2).
    rewrite lookup_insert_ne in Hkb by done.
    exists kf, kb, kf', kb', p1, p2. split_and!; try done.
    + rewrite lookup_insert_ne by done. apply lookup_insert_eq.
    + apply lookup_insert_eq.
  - intros p h l1 h1 l2 h2 H1 H2.
    apply Hf in H1 as (k & k1 & p1 & Hk & -> & Hp1 & _ & Hs1 & He1).
    apply Hb in H2 as (k1' & k2 & p2 & Hk1 & -> & Hp2 & _ & _ & He2).
    rewrite lookup_insert_eq in Hk1. injection Hk1 as <-.
    exists k, k1, k2, p1, p2. split_and!; try done.
    + apply lookup_insert_eq.
    + apply lookup_insert_eq.
    + intros Hs. rewrite He2 by lia. rewrite He1 by done.
      by rewrite <- app_assoc.
Qed.

End Builders.

(** ** Layouts of a forward and backward pair *)

Section Layouts.

Context `{L : MklDnn}.

Variables (engine engine' : mkldnn_engine_t)
  (src_dims dst_dims src_dims' dst_dims' : Z)
  (src_sizes kernel_sizes dst_sizes strides padding : list Z)
  (src_sizes' kernel_sizes' dst_sizes' strides' padding' : list Z)
  (pool_type pool_type' : Z)
  (data_type data_type' : mkldnn_data_type_t).


End Layouts.

(** * More about the two builders *)

Section Tensors.

Context `{L : MklDnn}.

Lemma tensors_upto_1 (a : gmap Z mkldnn_tensor) t :
  a !! 0 = Some t -> tensors_upto a 1 = [t].
Proof.
  intros H. unfold tensors_upto.
  change (seqZ 0 1) with [0]. simpl. by rewrite H.
Qed.

Lemma tensors_upto_2 (a : gmap Z mkldnn_tensor) t0 t1 :
  a !! 0 = Some t0 -> a !! 1 = Some t1 -> tensors_upto a 2 = [t0; t1].
Proof.
  intros H0 H1. unfold tensors_upto.
  change (seqZ 0 2) with [0; 1]. simpl. by rewrite H0, H1.
Qed.

End Tensors.

Ltac ends_leaf :=
  intros <- <-; cbv beta iota;
  first
    [ by intros q Hq; rewrite ?lookup_insert_ne by done
    | by left
    | by right; left
    | by right; eexists; split; [reflexivity|]
    | by right; right; eexists; split; [reflexivity|] ].

Ltac sequence_leaf :=
  intros <- [= <-]; reflexivity.

Ltac early_leaf :=
  intros <- <-; cbn [app];
  first [ congruence
        | split; [by intros ?|];
          repeat (apply List.Forall_cons; [cbn; tauto|]);
          apply List.Forall_nil ].

Ltac wiring_leaf :=
  intros <- [= <-]; eexists _, _;
  split; [apply lookup_insert_eq|];
  cbn [op_prim op_desc inputs outputs num_inputs num_outputs net_push
       with_op_desc with_op_prim with_input with_output with_num_inputs
       with_num_outputs with_reorder_i with_reorder_o];
  split; [reflexivity|];
  first
    [ erewrite (tensors_upto_1 (<[0:=_]> _)) by apply lookup_insert_eq
    | erewrite (tensors_upto_2 (<[1:=_]> (<[0:=_]> _)))
        by first [ apply lookup_insert_eq
                 | rewrite lookup_insert_ne by done; apply lookup_insert_eq ]
    ];
  first
    [ erewrite (tensors_upto_1 (<[0:=_]> _)) by apply lookup_insert_eq
    | erewrite (tensors_upto_2 (<[1:=_]> (<[0:=_]> _)))
        by first [ apply lookup_insert_eq
                 | rewrite lookup_insert_ne by done; apply lookup_insert_eq ]
    ];
  cbn [fmap list_fmap fst mkldnn_primitive_at] in *;
  split; [eassumption|reflexivity].

Section Ends.

Context `{L : MklDnn}.

Variables (engine : mkldnn_engine_t) (src_dims dst_dims : Z)
  (src_sizes kernel_sizes dst_sizes strides padding : list Z)
  (pool_type : Z) (input_src_md : option mkldnn_memory_desc_t)
  (data_type : mkldnn_data_type_t).

#[local] Abbreviation fprop :=
  (create_mkldnn_pool_fprop_kernel engine src_dims dst_dims src_sizes
     kernel_sizes dst_sizes strides padding pool_type input_src_md
     data_type).
#[local] Abbreviation bprop :=
  (create_mkldnn_pool_bprop_kernel engine src_dims dst_dims src_sizes
     kernel_sizes dst_sizes strides padding pool_type input_src_md
     data_type).

(** How a forward run can end: with a store that differs from the first
    one at [opkernel] only, or in a fault at a kernel pointer that is not
    in the store or at a memory descriptor query that gave [NULL]. *)
Lemma fprop_ends opkernel h l r :
  fprop opkernel h = (l, r) ->
  match r with
  | Ret _ h' | Exit h' => forall q, q <> opkernel -> h' !! q = h !! q
  | Fault =>
      h !! opkernel = None \/
      exists q,
        last l = Some (Call_primitive_desc_query_memory_d q) /\
        lib_primitive_desc_query_memory_d q = None
  end.
Proof.
  intros H. run_from H. unfold create_mkldnn_pool_fprop_kernel.
  run. all: ends_leaf.
Qed.

Lemma bprop_ends fprop_opkernel opkernel h l r :
  bprop fprop_opkernel opkernel h = (l, r) ->
  match r with
  | Ret _ h' | Exit h' => forall q, q <> opkernel -> h' !! q = h !! q
  | Fault =>
      h !! fprop_opkernel = None \/
      h !! opkernel = None \/
      exists q,
        last l = Some (Call_primitive_desc_query_memory_d q) /\
        lib_primitive_desc_query_memory_d q = None
  end.
Proof.
  intros H. run_from H. unfold create_mkldnn_pool_bprop_kernel.
  run. all: ends_leaf.
Qed.

(** The calls of a run that returns, in order. *)
Lemma fprop_sequence opkernel h l h' :
  fprop opkernel h = (l, Ret tt h') ->
  kind_of <$> l =
  calls_in_order To_pooling_forward_desc_init
    (match input_src_md with Some _ => true | None => false end)
    (if decide (pool_type = 0) then true else false).
Proof.
  intros H. run_from H. unfold create_mkldnn_pool_fprop_kernel.
  run. all: try (intros; discriminate). all: sequence_leaf.
Qed.

Lemma bprop_sequence fprop_opkernel opkernel h l h' :
  bprop fprop_opkernel opkernel h = (l, Ret tt h') ->
  kind_of <$> l =
  calls_in_order To_pooling_backward_desc_init
    (match input_src_md with Some _ => true | None => false end)
    (if decide (pool_type = 0) then true else false).
Proof.
  intros H. run_from H. unfold create_mkldnn_pool_bprop_kernel.
  run. all: try (intros; discriminate). all: sequence_leaf.
Qed.

(** The primitive of a run that returns: what it was created from. *)
Lemma fprop_wiring opkernel h l h' :
  fprop opkernel h = (l, Ret tt h') ->
  exists k' p,
    h' !! opkernel = Some k' /\ op_prim k' = Some p /\
    lib_primitive_create (op_desc k')
      ((fun t => mkldnn_primitive_at (prim t) 0) <$>
         tensors_upto (inputs k') (num_inputs k'))
      (prim <$> tensors_upto (outputs k') (num_outputs k'))
      = (mkldnn_success, p) /\
    last l =
    Some (Call_primitive_create (op_desc k')
            ((fun t => mkldnn_primitive_at (prim t) 0) <$>
               tensors_upto (inputs k') (num_inputs k'))
            (prim <$> tensors_upto (outputs k') (num_outputs k'))
            mkldnn_success).
Proof.
  intros H. run_from H. unfold create_mkldnn_pool_fprop_kernel.
  run. all: try (intros; discriminate). all: wiring_leaf.
Qed.

Lemma bprop_wiring fprop_opkernel opkernel h l h' :
  bprop fprop_opkernel opkernel h = (l, Ret tt h') ->
  exists k' p,
    h' !! opkernel = Some k' /\ op_prim k' = Some p /\
    lib_primitive_create (op_desc k')
      ((fun t => mkldnn_primitive_at (prim t) 0) <$>
         tensors_upto (inputs k') (num_inputs k'))
      (prim <$> tensors_upto (outputs k') (num_outputs k'))
      = (mkldnn_success, p) /\
    last l =
    Some (Call_primitive_create (op_desc k')
            ((fun t => mkldnn_primitive_at (prim t) 0) <$>
               tensors_upto (inputs k') (num_inputs k'))
            (prim <$> tensors_upto (outputs k') (num_outputs k'))
            mkldnn_success).
Proof.
  intros H. run_from H. unfold create_mkldnn_pool_bprop_kernel.
  run. all: try (intros; discriminate). all: wiring_leaf.
Qed.

(** With a kernel pointer that is not in the store a run does not get
    past the creation of the primitive descriptor. *)
Lemma fprop_early opkernel h l r :
  h !! opkernel = None ->
  fprop opkernel h = (l, r) ->
  (forall h', r <> Ret tt h') /\
  Forall (fun c => kind_of c = To_memory_desc_init \/
                   kind_of c = To_pooling_forward_desc_init \/
                   kind_of c = To_primitive_desc_create) l.
Proof.
  intros Hnone H. run_from H. unfold create_mkldnn_pool_fprop_kernel.
  run. all: early_leaf.
Qed.

Lemma bprop_early fprop_opkernel opkernel h l r :
  h !! opkernel = None ->
  bprop fprop_opkernel opkernel h = (l, r) ->
  (forall h', r <> Ret tt h') /\
  Forall (fun c => kind_of c = To_memory_desc_init \/
                   kind_of c = To_pooling_backward_desc_init \/
                   kind_of c = To_primitive_desc_create) l.
Proof.
  intros Hnone H. run_from H. unfold create_mkldnn_pool_bprop_kernel.
  run. all: early_leaf.
Qed.

(** Without the forward kernel in the store a backward run ends before
    it creates a primitive descriptor. *)
Lemma bprop_without_forward fprop_opkernel opkernel h l r :
  h !! fprop_opkernel = None ->
  bprop fprop_opkernel opkernel h = (l, r) ->
  (forall h', r <> Ret tt h') /\
  Forall (fun c => kind_of c = To_memory_desc_init \/
                   kind_of c = To_pooling_backward_desc_init \/
                   kind_of c = To_primitive_desc_create /\ False) l.
Proof.
  intros Hnone H. run_from H. unfold create_mkldnn_pool_bprop_kernel.
  run. all: early_leaf.
Qed.

End Ends.

Section Extras.

Context `{L : MklDnn}.

Variables (engine : mkldnn_engine_t) (src_dims dst_dims : Z)
  (src_sizes kernel_sizes dst_sizes strides padding : list Z)
  (pool_type : Z) (input_src_md : option mkldnn_memory_desc_t)
  (data_type : mkldnn_data_type_t).

(** X1.  A kernel that was built has no reorder primitive: slot 0 of
    [reorder_i] and of [reorder_o] holds [NULL], and so does the slot of
    the workspace tensor of max pooling ([reorder_o[1]] of a forward
    kernel, [reorder_i[1]] of a backward kernel). *)
Theorem built_kernel_has_no_reorder :
  (forall opkernel h l h',
     create_mkldnn_pool_fprop_kernel engine src_dims dst_dims
       src_sizes kernel_sizes dst_sizes strides padding pool_type
       input_src_md data_type opkernel h = (l, Ret tt h') ->
     exists k',
       h' !! opkernel = Some k' /\
       reorder_i k' !! 0 = Some None /\ reorder_o k' !! 0 = Some None /\
       (pool_type = 0 -> reorder_o k' !! 1 = Some None)) /\
  (forall fprop_opkernel opkernel h l h',
     create_mkldnn_pool_bprop_kernel engine src_dims dst_dims
       src_sizes kernel_sizes dst_sizes strides padding pool_type
       input_src_md data_type fprop_opkernel opkernel h = (l, Ret tt h') ->
     exists k',
       h' !! opkernel = Some k' /\
       reorder_i k' !! 0 = Some None /\ reorder_o k' !! 0 = Some None /\
       (pool_type = 0 -> reorder_i k' !! 1 = Some None)).
Proof.
  split.
  - intros opkernel h l h' H. apply fprop_returns in H
      as (k & src_md & dst_md & op & pd & t_in & md_out & t_out & ws & p &
          Hk & Ha & _ & _ & _ & _ & ->).
    destruct Ha as (_ & _ & _ & _ & _ & _ & Hws & _).
    eexists. split; [apply lookup_insert_eq|]. simpl. split_and!.
    + apply lookup_insert_eq.
    + destruct ws; [rewrite lookup_insert_ne by done|];
        apply lookup_insert_eq.
    + intros Hp. rewrite decide_True in Hws by done.
      destruct Hws as (md_ws & t_ws & _ & _ & ->). apply lookup_insert_eq.
  - intros fo opkernel h l h' H. apply bprop_returns in H
      as (fk & _ & k & src_md & dst_md & op & pd & t_in & md_out & t_out &
          ws & p & Hk & Ha & _ & _ & _ & _ & ->).
    destruct Ha as (_ & _ & _ & _ & _ & _ & Hws & _).
    eexists. split; [apply lookup_insert_eq|]. simpl. split_and!.
    + destruct ws; [rewrite lookup_insert_ne by done|];
        apply lookup_insert_eq.
    + apply lookup_insert_eq.
    + intros Hp. rewrite decide_True in Hws by done.
      destruct Hws as (md_ws & t_ws & _ & _ & ->). apply lookup_insert_eq.
Qed.

(** X2.  The primitive of a kernel that was built is the one the
    library created from the kernel's primitive descriptor, with the
    primitives of the first [num_inputs] input tensors (each at output
    index 0) as sources and the primitives of the first [num_outputs]
    output tensors as destinations; that creation succeeded and is the
    last call of the run. *)
Theorem primitive_is_wired_to_the_counted_tensors :
  (forall opkernel h l h',
     create_mkldnn_pool_fprop_kernel engine src_dims dst_dims
       src_sizes kernel_sizes dst_sizes strides padding pool_type
       input_src_md data_type opkernel h = (l, Ret tt h') ->
     exists k' p,
       h' !! opkernel = Some k' /\ op_prim k' = Some p /\
       lib_primitive_create (op_desc k')
         ((fun t => mkldnn_primitive_at (prim t) 0) <$>
            tensors_upto (inputs k') (num_inputs k'))
         (prim <$> tensors_upto (outputs k') (num_outputs k'))
         = (mkldnn_success, p) /\
       last l =
       Some (Call_primitive_create (op_desc k')
               ((fun t => mkldnn_primitive_at (prim t) 0) <$>
                  tensors_upto (inputs k') (num_inputs k'))
               (prim <$> tensors_upto (outputs k') (num_outputs k'))
               mkldnn_success)) /\
  (forall fprop_opkernel opkernel h l h',
     create_mkldnn_pool_bprop_kernel engine src_dims dst_dims
       src_sizes kernel_sizes dst_sizes strides padding pool_type
       input_src_md data_type fprop_opkernel opkernel h = (l, Ret tt h') ->
     exists k' p,
       h' !! opkernel = Some k' /\ op_prim k' = Some p /\
       lib_primitive_create (op_desc k')
         ((fun t => mkldnn_primitive_at (prim t) 0) <$>
            tensors_upto (inputs k') (num_inputs k'))
         (prim <$> tensors_upto (outputs k') (num_outputs k'))
         = (mkldnn_success, p) /\
       last l =
       Some (Call_primitive_create (op_desc k')
               ((fun t => mkldnn_primitive_at (prim t) 0) <$>
                  tensors_upto (inputs k') (num_inputs k'))
               (prim <$> tensors_upto (outputs k') (num_outputs k'))
               mkldnn_success)).
Proof.
  split.
  - intros opkernel h l h' H. by eapply fprop_wiring.
  - intros fo opkernel h l h' H. by eapply bprop_wiring.
Qed.

(** X3.  A forward build changes nothing but its own record, and in that
    record no array slot but the ones it fills: slot 0 of [inputs] and
    [reorder_i], slot 0 of [outputs] and [reorder_o], slot 1 of [outputs]
    and [reorder_o] for max pooling only, and slot [net_size] of [net],
    where the primitive is stored.  After an average pooling build, slot 1
    of [outputs] still holds what it held before. *)
Theorem fprop_frame opkernel h l h' :
  create_mkldnn_pool_fprop_kernel engine src_dims dst_dims
    src_sizes kernel_sizes dst_sizes strides padding pool_type
    input_src_md data_type opkernel h = (l, Ret tt h') ->
  exists k k',
    h !! opkernel = Some k /\ h' !! opkernel = Some k' /\
    (forall q, q <> opkernel -> h' !! q = h !! q) /\
    (forall i, i <> 0 ->
       inputs k' !! i = inputs k !! i /\
       reorder_i k' !! i = reorder_i k !! i) /\
    (forall i, i <> 0 -> i <> 1 ->
       outputs k' !! i = outputs k !! i /\
       reorder_o k' !! i = reorder_o k !! i) /\
    (pool_type <> 0 ->
       outputs k' !! 1 = outputs k !! 1 /\
       reorder_o k' !! 1 = reorder_o k !! 1) /\
    (forall i, i <> net_size k -> net k' !! i = net k !! i).
Proof.
  intros H. apply fprop_returns in H
    as (k & src_md & dst_md & op & pd & t_in & md_out & t_out & ws & p &
        Hk & Ha & _ & _ & _ & _ & ->).
  destruct Ha as (_ & _ & _ & _ & _ & _ & Hws & _).
  exists k, (fprop_record k pd t_in t_out ws p).
  split; [done|]. split; [apply lookup_insert_eq|]. simpl. split_and!.
  - intros q Hq. by rewrite lookup_insert_ne.
  - intros i Hi. by rewrite !lookup_insert_ne.
  - intros i Hi0 Hi1. destruct ws; by rewrite !lookup_insert_ne.
  - intros Hp. rewrite decide_False in Hws by done. subst ws.
    by rewrite !lookup_insert_ne.
  - intros i Hi. by rewrite lookup_insert_ne.
Qed.

(** X4.  A backward build changes nothing but its own record: every
    other record of the store, the forward kernel among them when it is a
    different record, is as before, and of the arrays of its own record
    only slot 0 of [outputs] and [reorder_o], slot 0 of [inputs] and
    [reorder_i], for max pooling slot 1 of [inputs] and [reorder_i], and
    slot [net_size] of [net], where the primitive is stored, are
    written. *)
Theorem bprop_frame fprop_opkernel opkernel h l h' :
  create_mkldnn_pool_bprop_kernel engine src_dims dst_dims
    src_sizes kernel_sizes dst_sizes strides padding pool_type
    input_src_md data_type fprop_opkernel opkernel h = (l, Ret tt h') ->
  exists k k',
    h !! opkernel = Some k /\ h' !! opkernel = Some k' /\
    (forall q, q <> opkernel -> h' !! q = h !! q) /\
    (fprop_opkernel <> opkernel ->
       h' !! fprop_opkernel = h !! fprop_opkernel) /\
    (forall i, i <> 0 ->
       outputs k' !! i = outputs k !! i /\
       reorder_o k' !! i = reorder_o k !! i) /\
    (forall i, i <> 0 -> i <> 1 ->
       inputs k' !! i = inputs k !! i /\
       reorder_i k' !! i = reorder_i k !! i) /\
    (pool_type <> 0 ->
       inputs k' !! 1 = inputs k !! 1 /\
       reorder_i k' !! 1 = reorder_i k !! 1) /\
    (forall i, i <> net_size k -> net k' !! i = net k !! i).
Proof.
  intros H. apply bprop_returns in H
    as (fk & _ & k & src_md & dst_md & op & pd & t_in & md_out & t_out &
        ws & p & Hk & Ha & _ & _ & _ & _ & ->).
  destruct Ha as (_ & _ & _ & _ & _ & _ & Hws & _).
  exists k, (bprop_record k pd t_in t_out ws p).
  split; [done|]. split; [apply lookup_insert_eq|]. simpl. split_and!.
  - intros q Hq. by rewrite lookup_insert_ne.
  - intros Hq. by rewrite lookup_insert_ne.
  - intros i Hi. by rewrite !lookup_insert_ne.
  - intros i Hi0 Hi1. destruct ws; by rewrite !lookup_insert_ne.
  - intros Hp. rewrite decide_False in Hws by done. subst ws.
    by rewrite !lookup_insert_ne.
  - intros i Hi. by rewrite lookup_insert_ne.
Qed.

(** X5.  Input tensor 0 of either kernel is made by
    [create_mkldnn_tensor_from_md] from the caller's descriptor when
    there is one, and otherwise by [create_mkldnn_tensor] with the layout
    [mkldnn_chwn], in both cases over [src_dims] and [src_sizes];
    [create_mkldnn_tensor] is called for nothing else, and not at all
    when the caller gave a descriptor. *)
Theorem input_tensor_follows_the_layout :
  (forall opkernel h l h',
     create_mkldnn_pool_fprop_kernel engine src_dims dst_dims
       src_sizes kernel_sizes dst_sizes strides padding pool_type
       input_src_md data_type opkernel h = (l, Ret tt h') ->
     exists k' t_in,
       h' !! opkernel = Some k' /\ inputs k' !! 0 = Some t_in /\
       match input_src_md with
       | Some md =>
           util_create_mkldnn_tensor_from_md src_dims src_sizes md engine
             = Some t_in
       | None =>
           util_create_mkldnn_tensor src_dims src_sizes data_type
             mkldnn_chwn engine = Some t_in
       end) /\
  (forall fprop_opkernel opkernel h l h',
     create_mkldnn_pool_bprop_kernel engine src_dims dst_dims
       src_sizes kernel_sizes dst_sizes strides padding pool_type
       input_src_md data_type fprop_opkernel opkernel h = (l, Ret tt h') ->
     exists k' t_in,
       h' !! opkernel = Some k' /\ inputs k' !! 0 = Some t_in /\
       match input_src_md with
       | Some md =>
           util_create_mkldnn_tensor_from_md src_dims src_sizes md engine
             = Some t_in
       | None =>
           util_create_mkldnn_tensor src_dims src_sizes data_type
             mkldnn_chwn engine = Some t_in
       end) /\
  (forall opkernel h l r,
     create_mkldnn_pool_fprop_kernel engine src_dims dst_dims
       src_sizes kernel_sizes dst_sizes strides padding pool_type
       input_src_md data_type opkernel h = (l, r) ->
     forall n sz dt f e b,
       Call_create_mkldnn_tensor n sz dt f e b ∈ l ->
       input_src_md = None /\ n = src_dims /\ sz = src_sizes /\
       dt = data_type /\ f = mkldnn_chwn /\ e = engine) /\
  (forall fprop_opkernel opkernel h l r,
     create_mkldnn_pool_bprop_kernel engine src_dims dst_dims
       src_sizes kernel_sizes dst_sizes strides padding pool_type
       input_src_md data_type fprop_opkernel opkernel h = (l, r) ->
     forall n sz dt f e b,
       Call_create_mkldnn_tensor n sz dt f e b ∈ l ->
       input_src_md = None /\ n = src_dims /\ sz = src_sizes /\
       dt = data_type /\ f = mkldnn_chwn /\ e = engine).
Proof.
  split_and!.
  - intros opkernel h l h' H. apply fprop_returns in H
      as (k & src_md & dst_md & op & pd & t_in & md_out & t_out & ws & p &
          Hk & Ha & _ & _ & _ & _ & ->).
    destruct Ha as (Hsrc & _).
    exists (fprop_record k pd t_in t_out ws p), t_in.
    split; [apply lookup_insert_eq|]. split; [apply lookup_insert_eq|].
    destruct input_src_md; by destruct Hsrc.
  - intros fo opkernel h l h' H. apply bprop_returns in H
      as (fk & _ & k & src_md & dst_md & op & pd & t_in & md_out & t_out &
          ws & p & Hk & Ha & _ & _ & _ & _ & ->).
    destruct Ha as (Hsrc & _ & _ & _ & _ & _ & Hws & _).
    exists (bprop_record k pd t_in t_out ws p), t_in.
    split; [apply lookup_insert_eq|]. split.
    + simpl. destruct ws; [rewrite lookup_insert_ne by done|];
        apply lookup_insert_eq.
    + destruct input_src_md; by destruct Hsrc.
  - intros opkernel h l r H n sz dt f e b Hin.
    apply fprop_calls in H. rewrite Forall_forall in H.
    apply H in Hin. by inversion Hin.
  - intros fo opkernel h l r H n sz dt f e b Hin.
    apply bprop_calls in H. rewrite Forall_forall in H.
    apply H in Hin. by inversion Hin.
Qed.

(** X6.  A forward build returns exactly when its record is in the
    store, the checked library calls succeed (the source memory
    descriptor needs no call when the caller gave it), the tensor helpers
    come back and the queried memory descriptors are not [NULL]; the
    store it returns is the first store with the record replaced by the
    one built from those answers. *)
Theorem fprop_returns_iff opkernel h h' :
  (exists l, create_mkldnn_pool_fprop_kernel engine src_dims dst_dims
               src_sizes kernel_sizes dst_sizes strides padding pool_type
               input_src_md data_type opkernel h = (l, Ret tt h')) <->
  exists k src_md dst_md op pd t_in md_out t_out ws p,
    h !! opkernel = Some k /\
    fprop_answers engine src_dims dst_dims src_sizes kernel_sizes dst_sizes
      strides padding pool_type input_src_md data_type
      src_md dst_md op pd t_in md_out t_out ws p /\
    h' = <[opkernel := fprop_record k pd t_in t_out ws p]> h.
Proof.
  split.
  - intros [l H]. apply fprop_returns in H
      as (k & src_md & dst_md & op & pd & t_in & md_out & t_out & ws & p &
          Hk & Ha & _ & _ & _ & _ & ->).
    by exists k, src_md, dst_md, op, pd, t_in, md_out, t_out, ws, p.
  - intros (k & src_md & dst_md & op & pd & t_in & md_out & t_out & ws &
            p & Hk & Ha & ->).
    by eapply fprop_runs.
Qed.

(** X7.  A backward build returns exactly when the forward kernel and
    its own record are in the store, the checked library calls succeed
    (the primitive descriptor being created with the forward kernel's
    [op_desc] as hint), the tensor helpers come back and the queried
    memory descriptors are not [NULL]. *)
Theorem bprop_returns_iff fprop_opkernel opkernel h h' :
  (exists l, create_mkldnn_pool_bprop_kernel engine src_dims dst_dims
               src_sizes kernel_sizes dst_sizes strides padding pool_type
               input_src_md data_type fprop_opkernel opkernel h
     = (l, Ret tt h')) <->
  exists fk k src_md dst_md op pd t_in md_out t_out ws p,
    h !! fprop_opkernel = Some fk /\
    h !! opkernel = Some k /\
    bprop_answers engine src_dims dst_dims src_sizes kernel_sizes dst_sizes
      strides padding pool_type input_src_md data_type (op_desc fk)
      src_md dst_md op pd t_in md_out t_out ws p /\
    h' = <[opkernel := bprop_record k pd t_in t_out ws p]> h.
Proof.
  split.
  - intros [l H]. apply bprop_returns in H
      as (fk & Hfk & k & src_md & dst_md & op & pd & t_in & md_out & t_out &
          ws & p & Hk & Ha & _ & _ & _ & _ & ->).
    by exists fk, k, src_md, dst_md, op, pd, t_in, md_out, t_out, ws, p.
  - intros (fk & k & src_md & dst_md & op & pd & t_in & md_out & t_out &
            ws & p & Hfk & Hk & Ha & ->).
    by eapply bprop_runs.
Qed.

(** X8.  Either builder ends the process only inside a call that failed:
    when a run ends in [Exit], its last call is a checked library call
    with a status other than [mkldnn_success] or a tensor helper that did
    not come back, and every record of the store other than the one
    under construction is as it was. *)
Theorem exit_needs_a_failed_call :
  (forall opkernel h l h',
     create_mkldnn_pool_fprop_kernel engine src_dims dst_dims
       src_sizes kernel_sizes dst_sizes strides padding pool_type
       input_src_md data_type opkernel h = (l, Exit h') ->
     (exists c, last l = Some c /\ failed c) /\
     forall q, q <> opkernel -> h' !! q = h !! q) /\
  (forall fprop_opkernel opkernel h l h',
     create_mkldnn_pool_bprop_kernel engine src_dims dst_dims
       src_sizes kernel_sizes dst_sizes strides padding pool_type
       input_src_md data_type fprop_opkernel opkernel h = (l, Exit h') ->
     (exists c, last l = Some c /\ failed c) /\
     forall q, q <> opkernel -> h' !! q = h !! q).
Proof.
  split.
  - intros opkernel h l h' H. split.
    + apply fprop_stops in H as (_ & H2 & _).
      by destruct (H2 h' eq_refl) as [Hc _].
    + by apply fprop_ends in H.
  - intros fo opkernel h l h' H. split.
    + apply bprop_stops in H as (_ & H2 & _).
      by destruct (H2 h' eq_refl) as [Hc _].
    + by apply bprop_ends in H.
Qed.

(** X9.  The pointers the builders dereference without a test are the
    kernel pointers and the results of
    [mkldnn_primitive_desc_query_memory_d]: a run ends in a fault only
    when a kernel pointer is not in the store or when the last call was
    such a query and gave [NULL]. *)
Theorem fault_needs_a_bad_pointer :
  (forall opkernel h l,
     create_mkldnn_pool_fprop_kernel engine src_dims dst_dims
       src_sizes kernel_sizes dst_sizes strides padding pool_type
       input_src_md data_type opkernel h = (l, Fault) ->
     h !! opkernel = None \/
     exists q,
       last l = Some (Call_primitive_desc_query_memory_d q) /\
       lib_primitive_desc_query_memory_d q = None) /\
  (forall fprop_opkernel opkernel h l,
     create_mkldnn_pool_bprop_kernel engine src_dims dst_dims
       src_sizes kernel_sizes dst_sizes strides padding pool_type
       input_src_md data_type fprop_opkernel opkernel h = (l, Fault) ->
     h !! fprop_opkernel = None \/
     h !! opkernel = None \/
     exists q,
       last l = Some (Call_primitive_desc_query_memory_d q) /\
       lib_primitive_desc_query_memory_d q = None).
Proof.
  split.
  - intros opkernel h l H. by apply fprop_ends in H.
  - intros fo opkernel h l H. by apply bprop_ends in H.
Qed.

(** X10.  Without the forward kernel in the store a backward run never
    returns, and it ends before [mkldnn_primitive_desc_create] is called:
    its only calls are the initialisations of the memory descriptors and
    of the pooling descriptor. *)
Theorem backward_needs_the_forward_kernel fprop_opkernel opkernel h l r :
  h !! fprop_opkernel = None ->
  create_mkldnn_pool_bprop_kernel engine src_dims dst_dims
    src_sizes kernel_sizes dst_sizes strides padding pool_type
    input_src_md data_type fprop_opkernel opkernel h = (l, r) ->
  (forall h', r <> Ret tt h') /\
  forall c, c ∈ l ->
    kind_of c = To_memory_desc_init \/
    kind_of c = To_pooling_backward_desc_init.
Proof.
  intros Hnone H.
  pose proof (bprop_without_forward _ _ _ _ _ _ _ _ _ _ _ _ _ _ _ _ Hnone H)
    as [Hret Hall].
  split; [done|]. intros c Hc. rewrite Forall_forall in Hall.
  destruct (Hall c Hc) as [?|[?|[_ []]]]; auto.
Qed.

(** X11.  With a kernel pointer that is not in the store neither builder
    returns, and neither gets past [mkldnn_primitive_desc_create]: no
    query is made, no tensor and no primitive is created. *)
Theorem missing_kernel_stops_early :
  (forall opkernel h l r,
     h !! opkernel = None ->
     create_mkldnn_pool_fprop_kernel engine src_dims dst_dims
       src_sizes kernel_sizes dst_sizes strides padding pool_type
       input_src_md data_type opkernel h = (l, r) ->
     (forall h', r <> Ret tt h') /\
     forall c, c ∈ l ->
       kind_of c = To_memory_desc_init \/
       kind_of c = To_pooling_forward_desc_init \/
       kind_of c = To_primitive_desc_create) /\
  (forall fprop_opkernel opkernel h l r,
     h !! opkernel = None ->
     create_mkldnn_pool_bprop_kernel engine src_dims dst_dims
       src_sizes kernel_sizes dst_sizes strides padding pool_type
       input_src_md data_type fprop_opkernel opkernel h = (l, r) ->
     (forall h', r <> Ret tt h') /\
     forall c, c ∈ l ->
       kind_of c = To_memory_desc_init \/
       kind_of c = To_pooling_backward_desc_init \/
       kind_of c = To_primitive_desc_create).
Proof.
  split.
  - intros opkernel h l r Hnone H.
    pose proof (fprop_early _ _ _ _ _ _ _ _ _ _ _ _ _ _ _ Hnone H)
      as [Hret Hall].
    split; [done|]. by apply Forall_forall.
  - intros fo opkernel h l r Hnone H.
    pose proof (bprop_early _ _ _ _ _ _ _ _ _ _ _ _ _ _ _ _ Hnone H)
      as [Hret Hall].
    split; [done|]. by apply Forall_forall.
Qed.

(** X12.  The log of a build that returns, that is, its calls to the
    nine functions of [call_kind] (the library functions that can fail or
    that answer a query, and the two tensor helpers of [mkldnn_util]),
    is, in this order: the source memory descriptor (unless the caller
    gave one), the destination memory descriptor, the pooling descriptor,
    the primitive descriptor, the two role queries, input tensor 0, the
    memory descriptor query and output tensor 0, for max pooling the
    workspace query, its memory descriptor query and the workspace
    tensor, and last the primitive.  In particular one primitive
    descriptor and one primitive are created per build.  The calls to
    [mkldnn_primitive_at] are not among the nine functions and not part
    of this sequence: the embedding does not log them. *)
Theorem calls_of_a_build_in_order :
  (forall opkernel h l h',
     create_mkldnn_pool_fprop_kernel engine src_dims dst_dims
       src_sizes kernel_sizes dst_sizes strides padding pool_type
       input_src_md data_type opkernel h = (l, Ret tt h') ->
     kind_of <$> l =
     calls_in_order To_pooling_forward_desc_init
       (match input_src_md with Some _ => true | None => false end)
       (if decide (pool_type = 0) then true else false)) /\
  (forall fprop_opkernel opkernel h l h',
     create_mkldnn_pool_bprop_kernel engine src_dims dst_dims
       src_sizes kernel_sizes dst_sizes strides padding pool_type
       input_src_md data_type fprop_opkernel opkernel h = (l, Ret tt h') ->
     kind_of <$> l =
     calls_in_order To_pooling_backward_desc_init
       (match input_src_md with Some _ => true | None => false end)
       (if decide (pool_type = 0) then true else false)).
Proof.
  split.
  - intros opkernel h l h' H. by eapply fprop_sequence.
  - intros fo opkernel h l h' H. by eapply bprop_sequence.
Qed.

(** X13.  The strides, the window extents and the engine reach the
    library unchanged: every pooling descriptor is initialised with
    [strides] and [kernel_sizes] in that order, every primitive
    descriptor is created on the caller's engine, and every role query
    asks for index 0. *)
Theorem arguments_pass_through :
  (forall opkernel h l r,
     create_mkldnn_pool_fprop_kernel engine src_dims dst_dims
       src_sizes kernel_sizes dst_sizes strides padding pool_type
       input_src_md data_type opkernel h = (l, r) ->
     (forall pk ak s d st k pl pr pad status,
        Call_pooling_forward_desc_init pk ak s d st k pl pr pad status ∈ l ->
        st = strides /\ k = kernel_sizes) /\
     (forall op e hint status,
        Call_primitive_desc_create op e hint status ∈ l -> e = engine) /\
     (forall pd what i,
        Call_primitive_desc_query_pd pd what i ∈ l -> i = 0)) /\
  (forall fprop_opkernel opkernel h l r,
     create_mkldnn_pool_bprop_kernel engine src_dims dst_dims
       src_sizes kernel_sizes dst_sizes strides padding pool_type
       input_src_md data_type fprop_opkernel opkernel h = (l, r) ->
     (forall ak ds dd st k pl pr pad status,
        Call_pooling_backward_desc_init ak ds dd st k pl pr pad status ∈ l ->
        st = strides /\ k = kernel_sizes) /\
     (forall op e hint status,
        Call_primitive_desc_create op e hint status ∈ l -> e = engine) /\
     (forall pd what i,
        Call_primitive_desc_query_pd pd what i ∈ l -> i = 0)).
Proof.
  split.
  - intros opkernel h l r H. apply fprop_calls in H.
    rewrite Forall_forall in H.
    split_and!; intros;
      match goal with Hin : _ ∈ l |- _ => apply H in Hin;
        by inversion Hin end.
  - intros fo opkernel h l r H. apply bprop_calls in H.
    rewrite Forall_forall in H.
    split_and!; intros;
      match goal with Hin : _ ∈ l |- _ => apply H in Hin;
        by inversion Hin end.
Qed.

End Extras.

Section Composition.

Context `{L : MklDnn}.

Variables (engine engine' : mkldnn_engine_t)
  (src_dims dst_dims src_dims' dst_dims' : Z)
  (src_sizes kernel_sizes dst_sizes strides padding : list Z)
  (src_sizes' kernel_sizes' dst_sizes' strides' padding' : list Z)
  (pool_type pool_type' : Z)
  (input_src_md input_src_md' : option mkldnn_memory_desc_t)
  (data_type data_type' : mkldnn_data_type_t).

(** X14.  Forward build, then backward build on the store it returned:
    the backward primitive descriptor is created with, as hint, the very
    primitive descriptor the library gave the forward build, whatever the
    other arguments of the two builds are; and when the two kernels are
    different records, the forward kernel comes out of the backward
    build as the forward build left it. *)
Theorem backward_hint_is_the_forward_descriptor pf pb h l1 h1 l2 h2 :
  create_mkldnn_pool_fprop_kernel engine src_dims dst_dims src_sizes
    kernel_sizes dst_sizes strides padding pool_type input_src_md
    data_type pf h = (l1, Ret tt h1) ->
  create_mkldnn_pool_bprop_kernel engine' src_dims' dst_dims' src_sizes'
    kernel_sizes' dst_sizes' strides' padding' pool_type' input_src_md'
    data_type' pf pb h1 = (l2, Ret tt h2) ->
  exists kf pd_f op_f op_b,
    h1 !! pf = Some kf /\ op_desc kf = Some pd_f /\
    lib_primitive_desc_create op_f engine None = (mkldnn_success, pd_f) /\
    Call_primitive_desc_create op_f engine None mkldnn_success ∈ l1 /\
    Call_primitive_desc_create op_b engine' (Some pd_f) mkldnn_success
      ∈ l2 /\
    (pf <> pb -> h2 !! pf = Some kf).
Proof.
  intros H1 H2.
  apply fprop_returns in H1
    as (k & src_md & dst_md & op & pd & t_in & md_out & t_out & ws & p &
        Hk & Ha & _ & _ & Hin & _ & ->).
  destruct Ha as (_ & _ & _ & Hpd & _).
  apply bprop_returns in H2
    as (fk & Hfk & k2 & src_md2 & dst_md2 & op2 & pd2 & t_in2 & md_out2 &
        t_out2 & ws2 & p2 & Hk2 & _ & _ & _ & Hin2 & _ & ->).
  rewrite lookup_insert_eq in Hfk. injection Hfk as <-.
  exists (fprop_record k pd t_in t_out ws p), pd, op, op2.
  split_and!; try done.
  - apply lookup_insert_eq.
  - intros Hne. rewrite lookup_insert_ne by done. apply lookup_insert_eq.
Qed.

End Composition.

(** * The builders on the model *)

Ltac computed := vm_compute; reflexivity.

(** A run that returns, with its log and store named rather than written
    out. *)
Ltac ran :=
  lazymatch goal with
  | |- exists l h, ?x = (l, Ret tt h) =>
      exists x.1, (default ∅ (returned x)); apply returned_run; computed
  end.

Ltac ran_with :=
  lazymatch goal with
  | |- exists l h, ?x = (l, Ret tt h) /\ _ =>
      exists x.1, (default ∅ (returned x));
      split; [apply returned_run; computed|vm_compute; in_log]
  | |- exists l r, ?x = (l, r) /\ _ =>
      exists x.1, x.2;
      split; [apply surjective_pairing|repeat eexists; vm_compute; in_log]
  end.

Ltac ran_twice :=
  lazymatch goal with
  | |- exists l1 h1 l2 h2, ?x = _ /\ _ =>
      exists x.1, (default ∅ (returned x));
      lazymatch goal with
      | |- exists l2 h2, _ /\ ?y = (l2, Ret tt h2) =>
          exists y.1, (default ∅ (returned y));
          split; apply returned_run; computed
      end
  end.

Import Model.

Lemma fprop_inputs_outputs_witness :
  (exists l h' k',
     fprop 0 None 1 heap0 = (l, Ret tt h') /\
     h' !! 1 = Some k' /\ num_inputs k' = 1 /\ num_outputs k' = 2) /\
  (exists l h' k',
     fprop 1 None 1 heap0 = (l, Ret tt h') /\
     h' !! 1 = Some k' /\ num_inputs k' = 1 /\ num_outputs k' = 1).
Proof.
  split.
  - assert (H : exists l h', fprop 0 None 1 heap0 = (l, Ret tt h'))
      by ran.
    destruct H as (l & h' & H).
    destruct (fprop_inputs_outputs (L := lib) _ _ _ _ _ _ _ _ _ _ _ _ _ _
                _ H)
      as (k' & t_in & md_out & t_out & Hk & Hn & _ & _ & _ & _ & Hmax & _).
    exists l, h', k'. split_and!; try assumption. exact (proj1 (Hmax eq_refl)).
  - assert (H : exists l h', fprop 1 None 1 heap0 = (l, Ret tt h'))
      by ran.
    destruct H as (l & h' & H).
    destruct (fprop_inputs_outputs (L := lib) _ _ _ _ _ _ _ _ _ _ _ _ _ _
                _ H)
      as (k' & t_in & md_out & t_out & Hk & Hn & _ & _ & _ & _ & _ & Havg).
    exists l, h', k'. split_and!; try assumption. apply Havg. discriminate.
Defined.

Lemma bprop_inputs_outputs_witness :
  (exists l h' k',
     bprop 0 None 1 2 heap1 = (l, Ret tt h') /\
     h' !! 2 = Some k' /\ num_inputs k' = 2 /\ num_outputs k' = 1) /\
  (exists l h' k',
     bprop 1 None 1 2 heap1 = (l, Ret tt h') /\
     h' !! 2 = Some k' /\ num_inputs k' = 1 /\ num_outputs k' = 1).
Proof.
  split.
  - assert (H : exists l h', bprop 0 None 1 2 heap1 = (l, Ret tt h'))
      by ran.
    destruct H as (l & h' & H).
    destruct (bprop_inputs_outputs (L := lib) _ _ _ _ _ _ _ _ _ _ _ _ _ _
                _ _ H)
      as (k' & t_in & md_out & t_out & Hk & Hn & _ & _ & _ & _ & Hmax & _).
    exists l, h', k'. split_and!; try assumption. exact (proj1 (Hmax eq_refl)).
  - assert (H : exists l h', bprop 1 None 1 2 heap1 = (l, Ret tt h'))
      by ran.
    destruct H as (l & h' & H).
    destruct (bprop_inputs_outputs (L := lib) _ _ _ _ _ _ _ _ _ _ _ _ _ _
                _ _ H)
      as (k' & t_in & md_out & t_out & Hk & Hn & _ & _ & _ & _ & _ & Havg).
    exists l, h', k'. split_and!; try assumption. apply Havg. discriminate.
Defined.

Lemma primitive_desc_hint_witness :
  (exists l h' op hint,
     fprop 0 None 1 heap0 = (l, Ret tt h') /\
     Call_primitive_desc_create op tt hint mkldnn_success ∈ l /\
     hint = None) /\
  (exists l h' fk op hint,
     bprop 0 None 1 2 heap1 = (l, Ret tt h') /\
     heap1 !! 1 = Some fk /\
     Call_primitive_desc_create op tt hint mkldnn_success ∈ l /\
     hint = op_desc fk).
Proof.
  split.
  - destruct (primitive_desc_hint (L := lib) tt 4 4 [8; 16; 32; 32] [2; 2]
                [8; 16; 16; 16] [2; 2] [0; 0] 0 None mkldnn_f32)
      as (T1 & _ & T3 & _).
    assert (H : exists l h', fprop 0 None 1 heap0 = (l, Ret tt h'))
      by ran.
    destruct H as (l & h' & H).
    destruct (T3 _ _ _ _ H) as (op & Hin).
    exists l, h', op, None.
    split_and!; [exact H|exact Hin|exact (T1 _ _ _ _ H _ _ _ _ Hin)].
  - destruct (primitive_desc_hint (L := lib) tt 4 4 [8; 16; 16; 16] [2; 2]
                [8; 16; 32; 32] [2; 2] [0; 0] 0 None mkldnn_f32)
      as (_ & T2 & _ & T4).
    assert (H : exists l h', bprop 0 None 1 2 heap1 = (l, Ret tt h'))
      by ran.
    destruct H as (l & h' & H).
    destruct (T4 _ _ _ _ _ H) as (fk & op & Hfk & Hin).
    destruct (T2 _ _ _ _ _ H _ _ _ _ Hin) as (fk' & Hfk' & Hhint).
    exists l, h', fk', op, (op_desc fk). split_and!; assumption.
Defined.

Lemma source_and_destination_descriptors_witness :
  (exists l h' ak s d status,
     fprop 0 None 1 heap0 = (l, Ret tt h') /\
     Call_pooling_forward_desc_init mkldnn_forward_training ak s d [2; 2]
       [2; 2] [0; 0] [0; 0] mkldnn_padding_zero status ∈ l /\
     s = (memory_desc_init 4 [8; 16; 32; 32] mkldnn_f32 mkldnn_chwn).2 /\
     d = (memory_desc_init 4 [8; 16; 16; 16] mkldnn_f32 mkldnn_any).2 /\
     Call_memory_desc_init 4 [8; 16; 32; 32] mkldnn_f32 mkldnn_chwn
       mkldnn_success ∈ l) /\
  (exists l h' ak ds dd status,
     bprop 0 None 1 2 heap1 = (l, Ret tt h') /\
     Call_pooling_backward_desc_init ak ds dd [2; 2] [2; 2] [0; 0] [0; 0]
       mkldnn_padding_zero status ∈ l /\
     dd = (memory_desc_init 4 [8; 16; 16; 16] mkldnn_f32 mkldnn_chwn).2 /\
     ds = (memory_desc_init 4 [8; 16; 32; 32] mkldnn_f32 mkldnn_any).2 /\
     Call_memory_desc_init 4 [8; 16; 32; 32] mkldnn_f32 mkldnn_any
       mkldnn_success ∈ l).
Proof.
  split.
  - destruct (source_and_destination_descriptors (L := lib) tt 4 4
                [8; 16; 32; 32] [2; 2] [8; 16; 16; 16] [2; 2] [0; 0] 0 None
                mkldnn_f32)
      as (T1 & _ & T3 & _).
    assert (H : exists l h',
              fprop 0 None 1 heap0 = (l, Ret tt h') /\
              Call_memory_desc_init 4 [8; 16; 32; 32] mkldnn_f32 mkldnn_chwn
                mkldnn_success ∈ l).
    { ran_with. }
    destruct H as (l & h' & H & Hmd).
    destruct (T3 _ _ _ _ H) as (ak & s & d & status & Hin).
    destruct (T1 _ _ _ _ H) as [Hsd Hinit].
    destruct (Hsd _ _ _ _ _ _ _ _ _ _ Hin) as [Hs Hd].
    destruct (Hinit _ _ _ _ _ Hmd) as [_ _].
    exists l, h', ak, s, d, status. split_and!; assumption.
  - destruct (source_and_destination_descriptors (L := lib) tt 4 4
                [8; 16; 16; 16] [2; 2] [8; 16; 32; 32] [2; 2] [0; 0] 0 None
                mkldnn_f32)
      as (_ & T2 & _ & T4).
    assert (H : exists l h',
              bprop 0 None 1 2 heap1 = (l, Ret tt h') /\
              Call_memory_desc_init 4 [8; 16; 32; 32] mkldnn_f32 mkldnn_any
                mkldnn_success ∈ l).
    { ran_with. }
    destruct H as (l & h' & H & Hmd).
    destruct (T4 _ _ _ _ _ H) as (ak & ds & dd & status & Hin).
    destruct (T2 _ _ _ _ _ H) as [Hsd Hinit].
    destruct (Hsd _ _ _ _ _ _ _ _ _ Hin) as [Hs Hd].
    destruct (Hinit _ _ _ _ _ Hmd) as [_ _].
    exists l, h', ak, ds, dd, status. split_and!; assumption.
Defined.

Lemma forward_training_zero_padding_witness :
  exists l h' pk ak s d pad,
    fprop 1 None 1 heap0 = (l, Ret tt h') /\
    Call_pooling_forward_desc_init pk ak s d [2; 2] [2; 2] [0; 0] [0; 0] pad
      mkldnn_success ∈ l /\
    ak = mkldnn_pooling_avg /\
    pk = mkldnn_forward_training /\ pad = mkldnn_padding_zero.
Proof.
  destruct (forward_training_zero_padding (L := lib) tt 4 4 [8; 16; 32; 32]
              [2; 2] [8; 16; 16; 16] [2; 2] [0; 0] 1 None mkldnn_f32)
    as (T1 & T2).
  assert (H : exists l h', fprop 1 None 1 heap0 = (l, Ret tt h'))
    by ran.
  destruct H as (l & h' & H).
  destruct (T2 _ _ _ _ H) as (s & d & Hin).
  destruct (T1 _ _ _ _ H _ _ _ _ _ _ _ _ _ _ Hin) as [Hpk Hpad].
  exists l, h', mkldnn_forward_training, mkldnn_pooling_avg, s, d,
    mkldnn_padding_zero.
  split_and!; first [assumption|reflexivity].
Defined.

Lemma padding_is_symmetric_witness :
  (exists l r pk ak s d st k pl pr pad status,
     fprop 0 None 1 heap0 = (l, r) /\
     Call_pooling_forward_desc_init pk ak s d st k pl pr pad status ∈ l /\
     pl = [0; 0] /\ pr = [0; 0]) /\
  (exists l r ak ds dd st k pl pr pad status,
     bprop 0 None 1 2 heap1 = (l, r) /\
     Call_pooling_backward_desc_init ak ds dd st k pl pr pad status ∈ l /\
     pl = [0; 0] /\ pr = [0; 0]).
Proof.
  split.
  - assert (H : exists l r, fprop 0 None 1 heap0 = (l, r) /\
              exists pk ak s d st k pl pr pad status,
                Call_pooling_forward_desc_init pk ak s d st k pl pr pad
                  status ∈ l).
    { ran_with. }
    destruct H as (l & r & H & pk & ak & s & d & st & k & pl & pr & pad &
                   status & Hin).
    destruct (padding_is_symmetric (L := lib) tt 4 4 [8; 16; 32; 32] [2; 2]
                [8; 16; 16; 16] [2; 2] [0; 0] 0 None mkldnn_f32) as [T1 _].
    destruct (T1 _ _ _ _ H _ _ _ _ _ _ _ _ _ _ Hin) as [Hl Hr].
    exists l, r, pk, ak, s, d, st, k, pl, pr, pad, status.
    split_and!; assumption.
  - assert (H : exists l r, bprop 0 None 1 2 heap1 = (l, r) /\
              exists ak ds dd st k pl pr pad status,
                Call_pooling_backward_desc_init ak ds dd st k pl pr pad
                  status ∈ l).
    { ran_with. }
    destruct H as (l & r & H & ak & ds & dd & st & k & pl & pr & pad &
                   status & Hin).
    destruct (padding_is_symmetric (L := lib) tt 4 4 [8; 16; 16; 16] [2; 2]
                [8; 16; 32; 32] [2; 2] [0; 0] 0 None mkldnn_f32) as [_ T2].
    destruct (T2 _ _ _ _ _ H _ _ _ _ _ _ _ _ _ Hin) as [Hl Hr].
    exists l, r, ak, ds, dd, st, k, pl, pr, pad, status.
    split_and!; assumption.
Defined.

Lemma nonzero_pool_type_is_average_witness :
  7 <> 0 /\
  fprop 7 None 1 heap0 = fprop 1 None 1 heap0 /\
  bprop 7 None 1 2 heap1 = bprop 1 None 1 2 heap1 /\
  (exists l r pk ak s d st k pl pr pad status,
     fprop 7 None 1 heap0 = (l, r) /\
     Call_pooling_forward_desc_init pk ak s d st k pl pr pad status ∈ l /\
     ak = mkldnn_pooling_avg) /\
  (exists l r ak ds dd st k pl pr pad status,
     bprop 0 None 1 2 heap1 = (l, r) /\
     Call_pooling_backward_desc_init ak ds dd st k pl pr pad status ∈ l /\
     ak = mkldnn_pooling_max).
Proof.
  assert (H7 : 7 <> 0) by discriminate.
  destruct (nonzero_pool_type_is_average (L := lib) tt 4 4 [8; 16; 32; 32]
              [2; 2] [8; 16; 16; 16] [2; 2] [0; 0] 7 None mkldnn_f32)
    as (T1 & _ & T3 & _).
  destruct (nonzero_pool_type_is_average (L := lib) tt 4 4 [8; 16; 16; 16]
              [2; 2] [8; 16; 32; 32] [2; 2] [0; 0] 7 None mkldnn_f32)
    as (_ & T2 & _ & _).
  destruct (nonzero_pool_type_is_average (L := lib) tt 4 4 [8; 16; 16; 16]
              [2; 2] [8; 16; 32; 32] [2; 2] [0; 0] 0 None mkldnn_f32)
    as (_ & _ & _ & T4).
  split_and!.
  - exact H7.
  - exact (T1 H7 1 heap0).
  - exact (T2 H7 1 2 heap1).
  - assert (H : exists l r, fprop 7 None 1 heap0 = (l, r) /\
              exists pk ak s d st k pl pr pad status,
                Call_pooling_forward_desc_init pk ak s d st k pl pr pad
                  status ∈ l).
    { ran_with. }
    destruct H as (l & r & H & pk & ak & s & d & st & k & pl & pr & pad &
                   status & Hin).
    destruct (T3 _ _ _ _ H) as [Hak _].
    destruct (Hak _ _ _ _ _ _ _ _ _ _ Hin) as [_ Havg].
    exists l, r, pk, ak, s, d, st, k, pl, pr, pad, status.
    split_and!; [assumption|assumption|exact (Havg H7)].
  - assert (H : exists l r, bprop 0 None 1 2 heap1 = (l, r) /\
              exists ak ds dd st k pl pr pad status,
                Call_pooling_backward_desc_init ak ds dd st k pl pr pad
                  status ∈ l).
    { ran_with. }
    destruct H as (l & r & H & ak & ds & dd & st & k & pl & pr & pad &
                   status & Hin).
    destruct (T4 _ _ _ _ _ H) as [Hak _].
    destruct (Hak _ _ _ _ _ _ _ _ _ Hin) as [Hmax _].
    exists l, r, ak, ds, dd, st, k, pl, pr, pad, status.
    split_and!; [assumption|assumption|exact (Hmax eq_refl)].
Defined.

Lemma failure_is_fatal_witness :
  (exists l h',
     bad_fprop 1 heap0 = (l, Exit h') /\
     l = [Call_memory_desc_init 3 [8; 16; 32; 32] mkldnn_f32 mkldnn_chwn
            mkldnn_invalid_arguments] /\
     nets_unchanged heap0 h') /\
  (exists l h',
     bad_bprop 1 2 heap1 = (l, Exit h') /\
     l = [Call_memory_desc_init 3 [8; 16; 16; 16] mkldnn_f32 mkldnn_chwn
            mkldnn_invalid_arguments] /\
     nets_unchanged heap1 h').
Proof.
  destruct (failure_is_fatal (L := lib) tt 3 4 [8; 16; 32; 32] [2; 2]
              [8; 16; 16; 16] [2; 2] [0; 0] 0 None mkldnn_f32) as [T1 _].
  destruct (failure_is_fatal (L := lib) tt 3 4 [8; 16; 16; 16] [2; 2]
              [8; 16; 32; 32] [2; 2] [0; 0] 0 None mkldnn_f32) as [_ T2].
  split.
  - assert (H : exists r,
              bad_fprop 1 heap0 =
              ([] ++ Call_memory_desc_init 3 [8; 16; 32; 32] mkldnn_f32
                       mkldnn_chwn mkldnn_invalid_arguments :: [], r))
      by (eexists; computed).
    destruct H as (r & H).
    assert (Hf : failed (Call_memory_desc_init 3 [8; 16; 32; 32] mkldnn_f32
                           mkldnn_chwn mkldnn_invalid_arguments))
      by (cbn; discriminate).
    destruct (T1 _ _ _ _ H _ _ _ eq_refl Hf) as (_ & h' & -> & Hn).
    eexists _, h'. split_and!; [exact H|reflexivity|exact Hn].
  - assert (H : exists r,
              bad_bprop 1 2 heap1 =
              ([] ++ Call_memory_desc_init 3 [8; 16; 16; 16] mkldnn_f32
                       mkldnn_chwn mkldnn_invalid_arguments :: [], r))
      by (eexists; computed).
    destruct H as (r & H).
    assert (Hf : failed (Call_memory_desc_init 3 [8; 16; 16; 16] mkldnn_f32
                           mkldnn_chwn mkldnn_invalid_arguments))
      by (cbn; discriminate).
    destruct (T2 _ _ _ _ _ H _ _ _ eq_refl Hf) as (_ & h' & -> & Hn).
    eexists _, h'. split_and!; [exact H|reflexivity|exact Hn].
Defined.

Lemma net_gains_one_entry_witness :
  (exists l h' k' p,
     fprop 0 None 1 heap0 = (l, Ret tt h') /\
     h' !! 1 = Some k' /\ net_entries k' = [Some (Some p)]) /\
  (exists l h' k' p,
     bprop 0 None 1 2 heap1 = (l, Ret tt h') /\
     h' !! 2 = Some k' /\ net_entries k' = [Some (Some p)]) /\
  (exists l1 h1 l2 h2 kf kb p1 p2,
     same_fprop 0 1 heap0 = (l1, Ret tt h1) /\
     same_bprop 0 1 2 h1 = (l2, Ret tt h2) /\
     h2 !! 1 = Some kf /\ h2 !! 2 = Some kb /\
     net_entries kf = [Some (Some p1)] /\
     net_entries kb = [Some (Some p2)]) /\
  (exists l1 h1 l2 h2 k2 p1 p2,
     same_fprop 0 1 heap0 = (l1, Ret tt h1) /\
     same_bprop 0 1 1 h1 = (l2, Ret tt h2) /\
     h2 !! 1 = Some k2 /\
     net_entries k2 = [Some (Some p1); Some (Some p2)]).
Proof.
  destruct (net_gains_one_entry (L := lib) tt 4 4 [8; 16; 32; 32] [2; 2]
              [8; 16; 16; 16] [2; 2] [0; 0] 0 None mkldnn_f32)
    as (T1 & _ & _ & _).
  destruct (net_gains_one_entry (L := lib) tt 4 4 [8; 16; 16; 16] [2; 2]
              [8; 16; 32; 32] [2; 2] [0; 0] 0 None mkldnn_f32)
    as (_ & T2 & _ & _).
  destruct (net_gains_one_entry (L := lib) tt 4 4 [8; 16; 32; 32] [1; 1]
              [8; 16; 32; 32] [1; 1] [0; 0] 0 None mkldnn_f32)
    as (_ & _ & T3 & T4).
  split_and!.
  - assert (H : exists l h', fprop 0 None 1 heap0 = (l, Ret tt h'))
      by ran.
    destruct H as (l & h' & H).
    destruct (T1 _ _ _ _ H) as (k & k' & p & Hk & -> & _ & _ & _ & He).
    vm_compute in Hk. injection Hk as <-.
    eexists l, _, k', p. split_and!; [exact H|apply lookup_insert_eq|].
    apply He. vm_compute. discriminate.
  - assert (H : exists l h', bprop 0 None 1 2 heap1 = (l, Ret tt h'))
      by ran.
    destruct H as (l & h' & H).
    destruct (T2 _ _ _ _ _ H) as (k & k' & p & Hk & -> & _ & _ & _ & He).
    vm_compute in Hk. injection Hk as <-.
    eexists l, _, k', p. split_and!; [exact H|apply lookup_insert_eq|].
    apply He. vm_compute. discriminate.
  - assert (H : exists l1 h1 l2 h2,
              same_fprop 0 1 heap0 = (l1, Ret tt h1) /\
              same_bprop 0 1 2 h1 = (l2, Ret tt h2)).
    { ran_twice. }
    destruct H as (l1 & h1 & l2 & h2 & H1 & H2).
    assert (Hne : 1 <> 2) by discriminate.
    destruct (T3 _ _ _ _ _ _ _ Hne H1 H2)
      as (kf & kb & kf' & kb' & p1 & p2 & Hkf & Hkb & Hkf' & Hkb' & _ & _ &
          He1 & He2).
    vm_compute in Hkf. injection Hkf as <-.
    vm_compute in Hkb. injection Hkb as <-.
    exists l1, h1, l2, h2, kf', kb', p1, p2.
    split_and!; try assumption.
    + apply He1. vm_compute. discriminate.
    + apply He2. vm_compute. discriminate.
  - assert (H : exists l1 h1 l2 h2,
              same_fprop 0 1 heap0 = (l1, Ret tt h1) /\
              same_bprop 0 1 1 h1 = (l2, Ret tt h2)).
    { ran_twice. }
    destruct H as (l1 & h1 & l2 & h2 & H1 & H2).
    destruct (T4 _ _ _ _ _ _ H1 H2)
      as (k & k1 & k2 & p1 & p2 & Hk & _ & Hk2 & _ & _ & He).
    vm_compute in Hk. injection Hk as <-.
    exists l1, h1, l2, h2, k2, p1, p2.
    split_and!; try assumption.
    apply He. vm_compute. discriminate.
Defined.

(** The second engine of the model resolves layouts as the
    specification has it. *)
Lemma negotiating_propagates_layouts :
  engine_propagates_layouts (L := negotiating).
Proof.
  intros fmt n_s sz_s dt_s src ak dst st k pl pr pad op_f e pd_f
    n_dd sz_dd dt_dd diff_dst n_ds sz_ds dt_ds diff_src
    ak' st' k' pl' pr' pad' op_b e' pd_b
    _ Hop_f Hpd_f _ Hdiff_src Hop_b Hpd_b.
  cbn in Hop_f, Hpd_f, Hdiff_src, Hop_b, Hpd_b |- *.
  unfold memory_desc_init in Hdiff_src.
  destruct (decide (Z.of_nat (length sz_ds) = n_ds)); [|discriminate].
  injection Hdiff_src as <-. injection Hop_f as <-. injection Hop_b as <-.
  unfold negotiated_desc_create in Hpd_f. injection Hpd_f as <-.
  unfold negotiated_desc_create in Hpd_b. injection Hpd_b as <-.
  reflexivity.
Qed.


(** C5 as the specification states it does not hold on the model: after
    the forward kernel was built at address 1 and the backward kernel at
    address 2, no kernel of the store has two new entries in its net. *)
Lemma two_entries_counterexample :
  exists l1 h1 l2 h2,
    fprop 0 None 1 heap0 = (l1, Ret tt h1) /\
    bprop 0 None 1 2 h1 = (l2, Ret tt h2) /\
    ~ exists q k k2 e1 e2,
        heap0 !! q = Some k /\ h2 !! q = Some k2 /\
        net_entries k2 = net_entries k ++ [e1; e2].
Proof.
  exists (fprop 0 None 1 heap0).1, heap1.
  exists (bprop 0 None 1 2 heap1).1,
    (default ∅ (returned (bprop 0 None 1 2 heap1))).
  split; [apply returned_run; computed|].
  split; [apply returned_run; computed|].
  intros (q & k & k2 & e1 & e2 & H0 & H2 & He).
  destruct (decide (q = 1)) as [->|Hq1];
    [|destruct (decide (q = 2)) as [->|Hq2]].
  - vm_compute in H0. injection H0 as <-.
    vm_compute in H2. injection H2 as <-. vm_compute in He. discriminate.
  - vm_compute in H0. injection H0 as <-.
    vm_compute in H2. injection H2 as <-. vm_compute in He. discriminate.
  - clear H2 He. unfold heap0 in H0.
    rewrite !lookup_insert_ne in H0 by done. discriminate.
Qed.

(** ** Runs behind the further properties *)

Lemma built_kernel_has_no_reorder_witness :
  (exists l h' k',
     fprop 0 None 1 heap0 = (l, Ret tt h') /\
     h' !! 1 = Some k' /\
     reorder_i k' !! 0 = Some None /\ reorder_o k' !! 0 = Some None /\
     reorder_o k' !! 1 = Some None) /\
  (exists l h' k',
     bprop 0 None 1 2 heap1 = (l, Ret tt h') /\
     h' !! 2 = Some k' /\
     reorder_i k' !! 0 = Some None /\ reorder_o k' !! 0 = Some None /\
     reorder_i k' !! 1 = Some None).
Proof.
  destruct (built_kernel_has_no_reorder (L := lib) tt 4 4 [8; 16; 32; 32]
              [2; 2] [8; 16; 16; 16] [2; 2] [0; 0] 0 None mkldnn_f32)
    as [T1 _].
  destruct (built_kernel_has_no_reorder (L := lib) tt 4 4 [8; 16; 16; 16]
              [2; 2] [8; 16; 32; 32] [2; 2] [0; 0] 0 None mkldnn_f32)
    as [_ T2].
  split.
  - assert (H : exists l h', fprop 0 None 1 heap0 = (l, Ret tt h'))
      by ran.
    destruct H as (l & h' & H).
    destruct (T1 _ _ _ _ H) as (k' & Hk & Hi & Ho & Hw).
    exists l, h', k'.
    split_and!; [exact H|exact Hk|exact Hi|exact Ho|exact (Hw eq_refl)].
  - assert (H : exists l h', bprop 0 None 1 2 heap1 = (l, Ret tt h'))
      by ran.
    destruct H as (l & h' & H).
    destruct (T2 _ _ _ _ _ H) as (k' & Hk & Hi & Ho & Hw).
    exists l, h', k'.
    split_and!; [exact H|exact Hk|exact Hi|exact Ho|exact (Hw eq_refl)].
Defined.

Lemma primitive_is_wired_to_the_counted_tensors_witness :
  (exists l h' k' p,
     fprop 0 None 1 heap0 = (l, Ret tt h') /\
     h' !! 1 = Some k' /\ op_prim k' = Some p /\
     last l =
     Some (Call_primitive_create (op_desc k')
             ((fun t => mkldnn_primitive_at (prim t) 0) <$>
                tensors_upto (inputs k') (num_inputs k'))
             (prim <$> tensors_upto (outputs k') (num_outputs k'))
             mkldnn_success)) /\
  (exists l h' k' p,
     bprop 0 None 1 2 heap1 = (l, Ret tt h') /\
     h' !! 2 = Some k' /\ op_prim k' = Some p /\
     last l =
     Some (Call_primitive_create (op_desc k')
             ((fun t => mkldnn_primitive_at (prim t) 0) <$>
                tensors_upto (inputs k') (num_inputs k'))
             (prim <$> tensors_upto (outputs k') (num_outputs k'))
             mkldnn_success)).
Proof.
  destruct (primitive_is_wired_to_the_counted_tensors (L := lib) tt 4 4
              [8; 16; 32; 32] [2; 2] [8; 16; 16; 16] [2; 2] [0; 0] 0 None
              mkldnn_f32)
    as [T1 _].
  destruct (primitive_is_wired_to_the_counted_tensors (L := lib) tt 4 4
              [8; 16; 16; 16] [2; 2] [8; 16; 32; 32] [2; 2] [0; 0] 0 None
              mkldnn_f32)
    as [_ T2].
  split.
  - assert (H : exists l h', fprop 0 None 1 heap0 = (l, Ret tt h'))
      by ran.
    destruct H as (l & h' & H).
    destruct (T1 _ _ _ _ H) as (k' & p & Hk & Hp & _ & Hlast).
    exists l, h', k', p.
    split_and!; [exact H|exact Hk|exact Hp|exact Hlast].
  - assert (H : exists l h', bprop 0 None 1 2 heap1 = (l, Ret tt h'))
      by ran.
    destruct H as (l & h' & H).
    destruct (T2 _ _ _ _ _ H) as (k' & p & Hk & Hp & _ & Hlast).
    exists l, h', k', p.
    split_and!; [exact H|exact Hk|exact Hp|exact Hlast].
Defined.

(** Average pooling built over the record of a max pooling: the
    workspace tensor of the first build stays in slot 1. *)
Lemma fprop_frame_witness :
  exists l h' k k',
    fprop 1 None 1 heap1 = (l, Ret tt h') /\
    heap1 !! 1 = Some k /\ h' !! 1 = Some k' /\
    h' !! 2 = heap1 !! 2 /\
    outputs k' !! 1 = outputs k !! 1 /\
    reorder_o k' !! 1 = reorder_o k !! 1 /\
    net k' !! 0 = net k !! 0.
Proof.
  assert (H : exists l h', fprop 1 None 1 heap1 = (l, Ret tt h'))
    by ran.
  destruct H as (l & h' & H).
  destruct (fprop_frame (L := lib) _ _ _ _ _ _ _ _ _ _ _ _ _ _ _ H)
    as (k & k' & Hk & Hk' & Hq & _ & _ & Havg & Hnet).
  assert (H21 : 2 <> 1) by discriminate.
  assert (H10 : 1 <> 0) by discriminate.
  destruct (Havg H10) as [Ho Hr].
  assert (Hn : forall k0, heap1 !! 1 = Some k0 -> 0 <> net_size k0).
  { intros k0 Hk0. vm_compute in Hk0. injection Hk0 as <-.
    vm_compute. discriminate. }
  exists l, h', k, k'.
  split_and!; [exact H|exact Hk|exact Hk'|exact (Hq 2 H21)|exact Ho|
               exact Hr|exact (Hnet 0 (Hn k Hk))].
Defined.

Lemma bprop_frame_witness :
  exists l h' k k',
    bprop 1 None 1 2 heap1 = (l, Ret tt h') /\
    heap1 !! 2 = Some k /\ h' !! 2 = Some k' /\
    h' !! 1 = heap1 !! 1 /\
    inputs k' !! 1 = inputs k !! 1 /\
    reorder_i k' !! 1 = reorder_i k !! 1 /\
    net k' !! 1 = net k !! 1.
Proof.
  assert (H : exists l h', bprop 1 None 1 2 heap1 = (l, Ret tt h'))
    by ran.
  destruct H as (l & h' & H).
  destruct (bprop_frame (L := lib) _ _ _ _ _ _ _ _ _ _ _ _ _ _ _ _ H)
    as (k & k' & Hk & Hk' & _ & Hf & _ & _ & Havg & Hnet).
  assert (H12 : 1 <> 2) by discriminate.
  assert (H10 : 1 <> 0) by discriminate.
  destruct (Havg H10) as [Hi Hr].
  assert (Hn : forall k0, heap1 !! 2 = Some k0 -> 1 <> net_size k0).
  { intros k0 Hk0. vm_compute in Hk0. injection Hk0 as <-.
    vm_compute. discriminate. }
  exists l, h', k, k'.
  split_and!; [exact H|exact Hk|exact Hk'|exact (Hf H12)|exact Hi|
               exact Hr|exact (Hnet 1 (Hn k Hk))].
Defined.

Lemma input_tensor_follows_the_layout_witness :
  (exists l h' k' t_in,
     fprop 0
       (Some (memory_desc_init 4 [8; 16; 32; 32] mkldnn_f32 mkldnn_nChw8c).2)
       1 heap0 = (l, Ret tt h') /\
     h' !! 1 = Some k' /\ inputs k' !! 0 = Some t_in /\
     tensor_from_md 4 [8; 16; 32; 32]
       (memory_desc_init 4 [8; 16; 32; 32] mkldnn_f32 mkldnn_nChw8c).2 tt
       = Some t_in) /\
  (exists l r n sz dt f e b,
     bprop 0 None 1 2 heap1 = (l, r) /\
     Call_create_mkldnn_tensor n sz dt f e b ∈ l /\
     n = 4 /\ sz = [8; 16; 16; 16] /\ f = mkldnn_chwn).
Proof.
  split.
  - destruct (input_tensor_follows_the_layout (L := lib) tt 4 4
                [8; 16; 32; 32] [2; 2] [8; 16; 16; 16] [2; 2] [0; 0] 0
                (Some (memory_desc_init 4 [8; 16; 32; 32] mkldnn_f32
                         mkldnn_nChw8c).2)
                mkldnn_f32)
      as (T1 & _).
    assert (H : exists l h',
              fprop 0
                (Some (memory_desc_init 4 [8; 16; 32; 32] mkldnn_f32
                         mkldnn_nChw8c).2)
                1 heap0 = (l, Ret tt h'))
      by ran.
    destruct H as (l & h' & H).
    destruct (T1 _ _ _ _ H) as (k' & t_in & Hk & Hi & Ht).
    exists l, h', k', t_in.
    split_and!; [exact H|exact Hk|exact Hi|exact Ht].
  - destruct (input_tensor_follows_the_layout (L := lib) tt 4 4
                [8; 16; 16; 16] [2; 2] [8; 16; 32; 32] [2; 2] [0; 0] 0 None
                mkldnn_f32)
      as (_ & _ & _ & T4).
    assert (H : exists l r, bprop 0 None 1 2 heap1 = (l, r) /\
              exists n sz dt f e b,
                Call_create_mkldnn_tensor n sz dt f e b ∈ l).
    { ran_with. }
    destruct H as (l & r & H & n & sz & dt & f & e & b & Hin).
    destruct (T4 _ _ _ _ _ H _ _ _ _ _ _ Hin)
      as (_ & Hn & Hsz & _ & Hf & _).
    exists l, r, n, sz, dt, f, e, b.
    split_and!; [exact H|exact Hin|exact Hn|exact Hsz|exact Hf].
Defined.

Lemma fprop_returns_iff_witness :
  exists l h' k pd t_in t_out ws p,
    fprop 0 None 1 heap0 = (l, Ret tt h') /\
    heap0 !! 1 = Some k /\
    h' = <[1 := fprop_record k pd t_in t_out ws p]> heap0.
Proof.
  assert (H : exists l h', fprop 0 None 1 heap0 = (l, Ret tt h'))
    by ran.
  destruct H as (l & h' & H).
  destruct (proj1 (fprop_returns_iff (L := lib) tt 4 4 [8; 16; 32; 32]
                     [2; 2] [8; 16; 16; 16] [2; 2] [0; 0] 0 None mkldnn_f32
                     1 heap0 h') (ex_intro _ l H))
    as (k & src_md & dst_md & op & pd & t_in & md_out & t_out & ws & p &
        Hk & _ & Hh).
  exists l, h', k, pd, t_in, t_out, ws, p.
  split_and!; [exact H|exact Hk|exact Hh].
Defined.

Lemma bprop_returns_iff_witness :
  exists l h' fk k pd t_in t_out ws p,
    bprop 0 None 1 2 heap1 = (l, Ret tt h') /\
    heap1 !! 1 = Some fk /\ heap1 !! 2 = Some k /\
    h' = <[2 := bprop_record k pd t_in t_out ws p]> heap1.
Proof.
  assert (H : exists l h', bprop 0 None 1 2 heap1 = (l, Ret tt h'))
    by ran.
  destruct H as (l & h' & H).
  destruct (proj1 (bprop_returns_iff (L := lib) tt 4 4 [8; 16; 16; 16]
                     [2; 2] [8; 16; 32; 32] [2; 2] [0; 0] 0 None mkldnn_f32
                     1 2 heap1 h') (ex_intro _ l H))
    as (fk & k & src_md & dst_md & op & pd & t_in & md_out & t_out & ws &
        p & Hfk & Hk & _ & Hh).
  exists l, h', fk, k, pd, t_in, t_out, ws, p.
  split_and!; [exact H|exact Hfk|exact Hk|exact Hh].
Defined.

Lemma exit_needs_a_failed_call_witness :
  (exists l h' c,
     bad_fprop 1 heap0 = (l, Exit h') /\
     last l = Some c /\ failed c /\ h' !! 2 = heap0 !! 2) /\
  (exists l h' c,
     bad_bprop 1 2 heap1 = (l, Exit h') /\
     last l = Some c /\ failed c /\ h' !! 1 = heap1 !! 1).
Proof.
  destruct (exit_needs_a_failed_call (L := lib) tt 3 4 [8; 16; 32; 32]
              [2; 2] [8; 16; 16; 16] [2; 2] [0; 0] 0 None mkldnn_f32)
    as [T1 _].
  destruct (exit_needs_a_failed_call (L := lib) tt 3 4 [8; 16; 16; 16]
              [2; 2] [8; 16; 32; 32] [2; 2] [0; 0] 0 None mkldnn_f32)
    as [_ T2].
  assert (H21 : 2 <> 1) by discriminate.
  assert (H12 : 1 <> 2) by discriminate.
  split.
  - assert (H : exists l h', bad_fprop 1 heap0 = (l, Exit h'))
      by (do 2 eexists; computed).
    destruct H as (l & h' & H).
    destruct (T1 _ _ _ _ H) as [(c & Hlast & Hc) Hq].
    exists l, h', c.
    split_and!; [exact H|exact Hlast|exact Hc|exact (Hq 2 H21)].
  - assert (H : exists l h', bad_bprop 1 2 heap1 = (l, Exit h'))
      by (do 2 eexists; computed).
    destruct H as (l & h' & H).
    destruct (T2 _ _ _ _ _ H) as [(c & Hlast & Hc) Hq].
    exists l, h', c.
    split_and!; [exact H|exact Hlast|exact Hc|exact (Hq 1 H12)].
Defined.

(** Address 7 holds no kernel. *)
Lemma fault_needs_a_bad_pointer_witness :
  (exists l,
     fprop 0 None 7 heap0 = (l, Fault) /\
     (heap0 !! 7 = None \/
      exists q,
        last l = Some (Call_primitive_desc_query_memory_d q) /\
        query_memory_d q = None)) /\
  (exists l,
     bprop 0 None 7 2 heap0 = (l, Fault) /\
     (heap0 !! 7 = None \/ heap0 !! 2 = None \/
      exists q,
        last l = Some (Call_primitive_desc_query_memory_d q) /\
        query_memory_d q = None)).
Proof.
  destruct (fault_needs_a_bad_pointer (L := lib) tt 4 4 [8; 16; 32; 32]
              [2; 2] [8; 16; 16; 16] [2; 2] [0; 0] 0 None mkldnn_f32)
    as [T1 _].
  destruct (fault_needs_a_bad_pointer (L := lib) tt 4 4 [8; 16; 16; 16]
              [2; 2] [8; 16; 32; 32] [2; 2] [0; 0] 0 None mkldnn_f32)
    as [_ T2].
  split.
  - assert (H : exists l, fprop 0 None 7 heap0 = (l, Fault))
      by (eexists; computed).
    destruct H as (l & H). exists l. split; [exact H|exact (T1 _ _ _ H)].
  - assert (H : exists l, bprop 0 None 7 2 heap0 = (l, Fault))
      by (eexists; computed).
    destruct H as (l & H). exists l. split; [exact H|exact (T2 _ _ _ _ H)].
Defined.

Lemma backward_needs_the_forward_kernel_witness :
  exists l r,
    bprop 0 None 7 2 heap0 = (l, r) /\
    heap0 !! 7 = None /\
    (forall h', r <> Ret tt h') /\
    forall c, c ∈ l ->
      kind_of c = To_memory_desc_init \/
      kind_of c = To_pooling_backward_desc_init.
Proof.
  assert (Hnone : heap0 !! 7 = None) by computed.
  assert (H : exists l r, bprop 0 None 7 2 heap0 = (l, r))
    by (do 2 eexists; computed).
  destruct H as (l & r & H).
  destruct (backward_needs_the_forward_kernel (L := lib) _ _ _ _ _ _ _ _ _
              _ _ _ _ _ _ _ Hnone H)
    as [Hret Hall].
  exists l, r. split_and!; [exact H|exact Hnone|exact Hret|exact Hall].
Defined.

Lemma missing_kernel_stops_early_witness :
  (exists l r,
     fprop 0 None 7 heap0 = (l, r) /\
     (forall h', r <> Ret tt h') /\
     forall c, c ∈ l ->
       kind_of c = To_memory_desc_init \/
       kind_of c = To_pooling_forward_desc_init \/
       kind_of c = To_primitive_desc_create) /\
  (exists l r,
     bprop 0 None 1 7 heap1 = (l, r) /\
     (forall h', r <> Ret tt h') /\
     forall c, c ∈ l ->
       kind_of c = To_memory_desc_init \/
       kind_of c = To_pooling_backward_desc_init \/
       kind_of c = To_primitive_desc_create).
Proof.
  destruct (missing_kernel_stops_early (L := lib) tt 4 4 [8; 16; 32; 32]
              [2; 2] [8; 16; 16; 16] [2; 2] [0; 0] 0 None mkldnn_f32)
    as [T1 _].
  destruct (missing_kernel_stops_early (L := lib) tt 4 4 [8; 16; 16; 16]
              [2; 2] [8; 16; 32; 32] [2; 2] [0; 0] 0 None mkldnn_f32)
    as [_ T2].
  split.
  - assert (Hnone : heap0 !! 7 = None) by computed.
    assert (H : exists l r, fprop 0 None 7 heap0 = (l, r))
      by (do 2 eexists; computed).
    destruct H as (l & r & H).
    destruct (T1 _ _ _ _ Hnone H) as [Hret Hall].
    exists l, r. split_and!; [exact H|exact Hret|exact Hall].
  - assert (Hnone : heap1 !! 7 = None) by computed.
    assert (H : exists l r, bprop 0 None 1 7 heap1 = (l, r))
      by (do 2 eexists; computed).
    destruct H as (l & r & H).
    destruct (T2 _ _ _ _ _ Hnone H) as [Hret Hall].
    exists l, r. split_and!; [exact H|exact Hret|exact Hall].
Defined.

Lemma calls_of_a_build_in_order_witness :
  (exists l h',
     fprop 0 None 1 heap0 = (l, Ret tt h') /\
     kind_of <$> l =
     calls_in_order To_pooling_forward_desc_init false true) /\
  (exists l h',
     bprop 1 None 1 2 heap1 = (l, Ret tt h') /\
     kind_of <$> l =
     calls_in_order To_pooling_backward_desc_init false false).
Proof.
  destruct (calls_of_a_build_in_order (L := lib) tt 4 4 [8; 16; 32; 32]
              [2; 2] [8; 16; 16; 16] [2; 2] [0; 0] 0 None mkldnn_f32)
    as [T1 _].
  destruct (calls_of_a_build_in_order (L := lib) tt 4 4 [8; 16; 16; 16]
              [2; 2] [8; 16; 32; 32] [2; 2] [0; 0] 1 None mkldnn_f32)
    as [_ T2].
  split.
  - assert (H : exists l h', fprop 0 None 1 heap0 = (l, Ret tt h'))
      by ran.
    destruct H as (l & h' & H).
    exists l, h'. split; [exact H|exact (T1 _ _ _ _ H)].
  - assert (H : exists l h', bprop 1 None 1 2 heap1 = (l, Ret tt h'))
      by ran.
    destruct H as (l & h' & H).
    exists l, h'. split; [exact H|exact (T2 _ _ _ _ _ H)].
Defined.

Lemma arguments_pass_through_witness :
  (exists l r pk ak s d st k pl pr pad status,
     fprop 0 None 1 heap0 = (l, r) /\
     Call_pooling_forward_desc_init pk ak s d st k pl pr pad status ∈ l /\
     st = [2; 2] /\ k = [2; 2]) /\
  (exists l r op e hint status,
     bprop 0 None 1 2 heap1 = (l, r) /\
     Call_primitive_desc_create op e hint status ∈ l /\ e = tt).
Proof.
  destruct (arguments_pass_through (L := lib) tt 4 4 [8; 16; 32; 32]
              [2; 2] [8; 16; 16; 16] [2; 2] [0; 0] 0 None mkldnn_f32)
    as [T1 _].
  destruct (arguments_pass_through (L := lib) tt 4 4 [8; 16; 16; 16]
              [2; 2] [8; 16; 32; 32] [2; 2] [0; 0] 0 None mkldnn_f32)
    as [_ T2].
  split.
  - assert (H : exists l r, fprop 0 None 1 heap0 = (l, r) /\
              exists pk ak s d st k pl pr pad status,
                Call_pooling_forward_desc_init pk ak s d st k pl pr pad
                  status ∈ l).
    { ran_with. }
    destruct H as (l & r & H & pk & ak & s & d & st & k & pl & pr & pad &
                   status & Hin).
    destruct (T1 _ _ _ _ H) as (Hp & _ & _).
    destruct (Hp _ _ _ _ _ _ _ _ _ _ Hin) as [Hst Hk].
    exists l, r, pk, ak, s, d, st, k, pl, pr, pad, status.
    split_and!; [exact H|exact Hin|exact Hst|exact Hk].
  - assert (H : exists l r, bprop 0 None 1 2 heap1 = (l, r) /\
              exists op e hint status,
                Call_primitive_desc_create op e hint status ∈ l).
    { ran_with. }
    destruct H as (l & r & H & op & e & hint & status & Hin).
    destruct (T2 _ _ _ _ _ H) as (_ & He & _).
    exists l, r, op, e, hint, status.
    split_and!; [exact H|exact Hin|exact (He _ _ _ _ Hin)].
Defined.

Lemma backward_hint_is_the_forward_descriptor_witness :
  exists l1 l2 h2 kf pd_f op_b,
    fprop 0 None 1 heap0 = (l1, Ret tt heap1) /\
    bprop 0 None 1 2 heap1 = (l2, Ret tt h2) /\
    heap1 !! 1 = Some kf /\ op_desc kf = Some pd_f /\
    Call_primitive_desc_create op_b tt (Some pd_f) mkldnn_success ∈ l2 /\
    h2 !! 1 = Some kf.
Proof.
  assert (H1 : exists l, fprop 0 None 1 heap0 = (l, Ret tt heap1)).
  { exists (fprop 0 None 1 heap0).1. apply returned_run. computed. }
  destruct H1 as (l1 & H1).
  assert (H2 : exists l h', bprop 0 None 1 2 heap1 = (l, Ret tt h'))
    by ran.
  destruct H2 as (l2 & h2 & H2).
  destruct (backward_hint_is_the_forward_descriptor (L := lib) _ _ _ _ _ _
              _ _ _ _ _ _ _ _ _ _ _ _ _ _ _ _ _ _ _ _ _ _ _ H1 H2)
    as (kf & pd_f & op_f & op_b & Hkf & Hpd & _ & _ & Hin & Hsame).
  assert (H12 : 1 <> 2) by discriminate.
  exists l1, l2, h2, kf, pd_f, op_b.
  split_and!; [exact H1|exact H2|exact Hkf|exact Hpd|exact Hin|
               exact (Hsame H12)].
Defined.
